(** * rl_upload.py: the bulk uploader, embedded and verified

    A shallow embedding of [src/rl_upload.py] (the Spectra Analyze bulk
    uploader): the retry loop [upload_with_retry], the file collector
    [collect_files], the SDK method resolver [resolve_upload_fn] with its
    two caller builders, and the orchestration in [main].

    Conventions.
    - The platform is POSIX: [os.path] is [posixpath].
    - Python [int] is [Z]; [str] is [string] (a byte string: for UTF-8 text
      the bytewise order is the code-point order Python compares by).
    - [f"{n}"] on an [int] is stdpp's [pretty] (decimal, leading [-]).
    - Effects are explicit: a computation transforms a [world] (the outside
      environment plus the chronological trace of what the program did) and
      ends by returning, by raising an [Exception], or by [sys.exit]. *)

From Stdlib Require Import ZArith Lia.
From stdpp Require Import base option list strings sorting pretty gmap.

Local Open Scope Z_scope.

(* ------------------------------------------------------------------ *)
(** ** Python values that the uploader inspects *)

(** A response object: only [status_code] is read by the program; [body]
    stands for the rest of the object. *)
Record Response := mkResponse { status_code : Z; body : string }.

(** What [getattr(exc, "response", None)] may hold: an object that has a
    [status_code] attribute ([Some code]) or lacks it ([None]). *)
Record InnerResponse := mkInner { inner_status_code : option Z }.

(** An instance of [Exception], as far as the handlers look at it. *)
Record PyException := mkExc {
  exc_type_name : string;               (* type(exc).__name__ *)
  exc_str : string;                     (* str(exc) *)
  isinstance_Timeout : bool;            (* requests.exceptions.Timeout *)
  isinstance_ConnectionError : bool;    (* requests.exceptions.ConnectionError *)
  exc_response : option InnerResponse   (* getattr(exc, "response", None) *)
}.

(** How a call ends.  [sys.exit] raises [SystemExit], which is not an
    [Exception]: [except Exception] does not catch it. *)
Inductive result (A : Type) : Type :=
| Returned (a : A)
| Raised (e : PyException)
| SysExit (code : Z).
Arguments Returned {A} a.
Arguments Raised {A} e.
Arguments SysExit {A} code.

(** The number type of the retry delay.  [--retry-delay] is parsed with
    [type=float] but its default is the [int] 5, and the loop only
    multiplies it by the attempt counter, formats it and sleeps on it. *)
Class Seconds (D : Type) := {
  mul_attempt : D → Z → D;     (* retry_delay * attempt *)
  format_0f : D → string;      (* f"{wait:.0f}" *)
  sleep_ok : D → bool          (* time.sleep accepts it (non-negative) *)
}.

#[global] Instance Seconds_int : Seconds Z := {
  mul_attempt d k := d * k;
  format_0f d := pretty d;
  sleep_ok d := bool_decide (0 ≤ d)
}.

(** [range(lo, hi)] *)
Definition py_range (lo hi : Z) : list Z := seqZ lo (hi - lo).

Definition ValueError (msg : string) : PyException :=
  {| exc_type_name := "ValueError"; exc_str := msg;
     isinstance_Timeout := false; isinstance_ConnectionError := false;
     exc_response := None |}.

(* ------------------------------------------------------------------ *)
(** ** The effect monad *)

Section Effects.
Context {Ev E : Type}.

(** The outside environment and the chronological trace of events. *)
Record world : Type := mkWorld { env : E; trace : list Ev }.

Definition M (A : Type) : Type := world → result A * world.

Definition ret {A} (a : A) : M A := λ w, (Returned a, w).

Definition bind {A B} (c : M A) (k : A → M B) : M B :=
  λ w, match c w with
       | (Returned a, w') => k a w'
       | (Raised e, w') => (Raised e, w')
       | (SysExit n, w') => (SysExit n, w')
       end.

Definition raise {A} (e : PyException) : M A := λ w, (Raised e, w).

Definition sys_exit {A} (code : Z) : M A := λ w, (SysExit code, w).

(** [try: body / except Exception as exc: handler exc] *)
Definition try_except {A} (body : M A) (handler : PyException → M A) : M A :=
  λ w, match body w with
       | (Raised e, w') => handler e w'
       | other => other
       end.

(** [try: body / finally: cleanup] *)
Definition try_finally {A} (body : M A) (cleanup : M unit) : M A :=
  λ w, let '(r, w') := body w in
       match cleanup w' with
       | (Returned _, w'') => (r, w'')
       | (Raised e, w'') => (Raised e, w'')
       | (SysExit n, w'') => (SysExit n, w'')
       end.

Definition emit (ev : Ev) : M unit :=
  λ w, (Returned tt, {| env := env w; trace := trace w ++ [ev] |}).

(** An operation of the environment that leaves no event of its own. *)
Definition outside {A} (op : E → result A * E) : M A :=
  λ w, let '(r, e') := op (env w) in (r, {| env := e'; trace := trace w |}).
End Effects.

Arguments world : clear implicits.
Arguments M : clear implicits.

Definition no_signature : PyException :=
  {| exc_type_name := "ValueError"; exc_str := "no signature found";
     isinstance_Timeout := false; isinstance_ConnectionError := false;
     exc_response := None |}.

(** The parameter names that [inspect.signature] yields, or its
    [ValueError]. *)
Definition py_signature {Ev E} (sig : option (list string))
  : M Ev E (list string) :=
  match sig with
  | Some params => ret params
  | None => raise no_signature
  end.

(** Running a computation that speaks events [X] inside one that speaks
    events [Ev]: its events are appended, wrapped by [inj]. *)
Definition lift {X Ev E A} (inj : X → Ev) (c : M X E A) : M Ev E A :=
  λ w, let '(r, w') := c {| env := env w; trace := [] |} in
       (r, {| env := env w'; trace := trace w ++ (inj <$> trace w') |}).

Notation "x <~ c ;; k" := (bind c (λ x, k))
  (at level 100, c at next level, right associativity).
Notation "c ;;; k" := (bind c (λ _, k))
  (at level 100, right associativity).

(** What the program itself does, in order; [X] are the events of the
    upload operation it drives. *)
Inductive event (D X : Type) : Type :=
| EvCall (fp : string)        (* upload_fn(file_path) is entered *)
| EvPrint (line : string)     (* print(line) *)
| EvStderr (line : string)    (* print(line, file=sys.stderr) *)
| EvSleep (d : D)             (* time.sleep(d) went through *)
| EvPatchTimeout (timeout : Z)  (* requests.Session.send is patched *)
| EvOp (x : X).           (* an event of the upload operation *)
Arguments EvCall {D X} fp.
Arguments EvPrint {D X} line.
Arguments EvStderr {D X} line.
Arguments EvSleep {D X} d.
Arguments EvPatchTimeout {D X} timeout.
Arguments EvOp {D X} x.

Section Primitives.
Context {D : Type} `{Seconds D} {X E : Type}.

Definition print (line : string) : M (event D X) E unit :=
  emit (EvPrint line).
Definition print_stderr (line : string) : M (event D X) E unit :=
  emit (EvStderr line).

Definition time_sleep (d : D) : M (event D X) E unit :=
  if sleep_ok d then emit (EvSleep d)
  else raise (ValueError "sleep length must be non-negative").
End Primitives.

(* ------------------------------------------------------------------ *)
(** ** upload_with_retry *)

(** How one pass through the [try] statement of the loop ends: the
    function returns, or control falls through to the back-off with
    [last_err] set. *)
Inductive flow : Type :=
| Return (response : option Response) (error_string : option string)
| Retryable (last_err : string).

Definition retryable_status (code : Z) : bool :=
  bool_decide (code = 429) || bool_decide (500 ≤ code).

Section UploadWithRetry.
Context {D : Type} `{Seconds D} {X E : Type}.
Variable upload_fn : string → M X E Response.
Variable file_path : string.
Variable retries : Z.
Variable retry_delay : D.

Definition on_response (response : Response) : flow :=
  let code := status_code response in
  if bool_decide (200 ≤ code) && bool_decide (code < 300) then
    Return (Some response) None
  else if retryable_status code then
    Retryable ("HTTP " +:+ pretty code)
  else
    Return (Some response) (Some ("HTTP " +:+ pretty code)).

Definition on_exception (exc : PyException) : flow :=
  if isinstance_Timeout exc then Retryable "timeout"
  else if isinstance_ConnectionError exc then
    Retryable ("connection error: " +:+ exc_str exc)
  else
    match exc_response exc ≫= inner_status_code with
    | Some code =>
        if retryable_status code then
          Retryable ("HTTP " +:+ pretty code +:+ " (via "
                     +:+ exc_type_name exc +:+ ")")
        else Return None (Some ("HTTP " +:+ pretty code))
    | None => Return None (Some (exc_str exc))
    end.

(** The [try] statement of one iteration. *)
Definition attempt_once : M (event D X) E flow :=
  try_except
    (emit (EvCall file_path) ;;;
     response <~ lift EvOp (upload_fn file_path) ;;
     ret (on_response response))
    (λ exc, ret (on_exception exc)).

(** The line printed before a back-off sleep. *)
Definition retry_notice (attempt : Z) (last_err : string) (wait : D) : string :=
  let pad := "          " in
  pad +:+ "Attempt " +:+ pretty attempt +:+ "/" +:+ pretty retries +:+ ": "
  +:+ last_err +:+ ", retrying in " +:+ format_0f wait +:+ "s...".

(** The [if attempt < retries:] block after the [try] statement. *)
Definition backoff (attempt : Z) (last_err : string) : M (event D X) E unit :=
  if bool_decide (attempt < retries) then
    let wait := mul_attempt retry_delay attempt in
    print (retry_notice attempt last_err wait) ;;;
    time_sleep wait
  else ret tt.

(** The [for attempt in ...] loop, on the attempts still to come. *)
Fixpoint retry_loop (attempts : list Z) (last_err : string)
  : M (event D X) E (option Response * option string) :=
  match attempts with
  | [] =>
      ret (None, Some (last_err +:+ " after " +:+ pretty retries
                       +:+ " attempts"))
  | attempt :: rest =>
      fl <~ attempt_once ;;
      match fl with
      | Return response err => ret (response, err)
      | Retryable last_err' =>
          backoff attempt last_err' ;;;
          retry_loop rest last_err'
      end
  end.

Definition upload_with_retry : M (event D X) E (option Response * option string) :=
  retry_loop (py_range 1 (retries + 1)) "unknown error".
End UploadWithRetry.

(* ------------------------------------------------------------------ *)
(** ** posixpath *)

(** The separator [/], byte 47. *)
Definition sep : Ascii.ascii := Ascii.ascii_of_nat 47.

Definition is_sep (c : Ascii.ascii) : bool := bool_decide (c = sep).

Definition startswith_sep (s : string) : bool :=
  match s with String c _ => is_sep c | EmptyString => false end.

Fixpoint endswith_sep (s : string) : bool :=
  match s with
  | EmptyString => false
  | String c EmptyString => is_sep c
  | String _ rest => endswith_sep rest
  end.

(** [os.path.join(a, b)] *)
Definition path_join (a b : string) : string :=
  if startswith_sep b then b
  else if bool_decide (a = "") || endswith_sep a then a +:+ b
  else a +:+ "/" +:+ b.

(** [(p[:i], p[i:])] with [i = p.rfind("/") + 1], the split that both
    [os.path.basename] and [os.path.dirname] start from. *)
Fixpoint split_path (p : string) : string * string :=
  match p with
  | EmptyString => ("", "")
  | String c rest =>
      let '(head, tail) := split_path rest in
      if is_sep c then (String c head, tail)
      else if bool_decide (head = "") then ("", String c tail)
      else (String c head, tail)
  end.

(** [os.path.basename(p)] *)
Definition basename (p : string) : string := (split_path p).2.

Fixpoint lstrip_sep (s : string) : string :=
  match s with
  | String c rest => if is_sep c then lstrip_sep rest else s
  | EmptyString => ""
  end.

(** [head.rstrip("/")] *)
Definition rstrip_sep (s : string) : string :=
  String.rev (lstrip_sep (String.rev s)).

(** [os.path.dirname(p)]: the head, without its trailing separators
    unless it consists of separators only. *)
Definition dirname (p : string) : string :=
  let head := (split_path p).1 in
  if bool_decide (rstrip_sep head = "") then head else rstrip_sep head.

(** The file system and the current directory, as the program queries
    them.  They do not change while the program runs. *)
Record FileSystem : Type := {
  isfile : string → bool;              (* os.path.isfile *)
  isdir : string → bool;               (* os.path.isdir *)
  listdir : string → list string;      (* os.listdir *)
  walk : string → list (string * list string * list string);
                                       (* list(os.walk(top)) *)
  abspath : string → string;           (* os.path.abspath *)
  relpath : string → string → string   (* os.path.relpath(path, start) *)
}.

(* ------------------------------------------------------------------ *)
(** ** collect_files *)

Section Collector.
Context {D X E : Type}.
(** [fnmatch.fnmatch(name, pattern)] *)
Variable fnmatch : string → string → bool.
Variable fs : FileSystem.

(** [any(fnmatch.fnmatch(fname, p) for p in excludes)] *)
Definition excluded (excludes : list string) (fname : string) : bool :=
  existsb (λ p, fnmatch fname p) excludes.

(** The [for pattern in excludes:] loop of the single-file branch:
    [Some] is its early [return], [None] is falling out of the loop. *)
Fixpoint single_file_loop (name : string) (excludes : list string)
  : option (list string * Z) :=
  match excludes with
  | [] => None
  | pattern :: rest =>
      if fnmatch name pattern then Some ([], 1)
      else single_file_loop name rest
  end.

(** The body shared by the two directory loops, on the accumulator
    [(files, skipped)]. *)
Definition visit (excludes : list string) (root fname : string)
    (acc : list string * Z) : list string * Z :=
  let '(files, skipped) := acc in
  let full := path_join root fname in
  if negb (isfile fs full) then (files, skipped)
  else if excluded excludes fname then (files, skipped + 1)
  else (files ++ [abspath fs full], skipped).

(** [for root, _dirs, filenames in os.walk(target_path): for fname in filenames: ...] *)
Definition scan_walk (excludes : list string)
    (triples : list (string * list string * list string))
    (acc : list string * Z) : list string * Z :=
  foldl (λ acc triple,
           let '(root, _dirs, filenames) := triple in
           foldl (λ acc fname, visit excludes root fname acc) acc filenames)
        acc triples.

(** [for fname in os.listdir(target_path): ...] *)
Definition scan_listdir (excludes : list string) (target_path : string)
    (names : list string) (acc : list string * Z) : list string * Z :=
  foldl (λ acc fname, visit excludes target_path fname acc) acc names.

(** [files.sort()]: the ascending order of [str]. *)
Definition py_sort (files : list string) : list string :=
  merge_sort String.le files.

Definition collect_files (target_path : string) (recursive : bool)
    (excludes : list string) : M (event D X) E (list string * Z) :=
  if isfile fs target_path then
    match single_file_loop (basename target_path) excludes with
    | Some early => ret early
    | None => ret ([abspath fs target_path], 0)
    end
  else if negb (isdir fs target_path) then
    emit (EvStderr ("ERROR: Path does not exist: " +:+ target_path)) ;;;
    sys_exit 1
  else
    let '(files, skipped) :=
      if recursive then
        scan_walk excludes (walk fs target_path) ([], 0)
      else
        scan_listdir excludes target_path (listdir fs target_path) ([], 0)
    in
    ret (py_sort files, skipped).
End Collector.

(* ------------------------------------------------------------------ *)
(** ** SDK method resolution *)

(** An attribute of the SDK object that is not [None].  [signature] is
    what [inspect.signature] makes of it: the parameter names, in order,
    or [None] when the call raises because no signature can be provided
    (callables implemented in C without signature metadata). *)
Record Method : Type := mkMethod {
  method_name : string;
  signature : option (list string)
}.

(** The SDK object, as [getattr(a1000, name, None)] sees it. *)
Abbreviation Client := (gmap string Method).

Definition handle : Type := nat.

Inductive argument : Type :=
| ArgPath (fp : string)
| ArgHandle (fh : handle).

Inductive call_args : Type :=
| Positional (a : argument)               (* m(a) *)
| Keyword (name : string) (a : argument). (* m(a) passed under the keyword name *)

(** What happens at the SDK and file layer, in order. *)
Inductive io_event : Type :=
| IoSignature (m : Method)                 (* inspect.signature(m) *)
| IoOpen (fp mode : string) (fh : handle)  (* open(fp, mode) gave fh *)
| IoInvoke (m : Method) (args : call_args) (* the entry point is entered *)
| IoClose (fh : handle).                   (* fh is closed *)

(** The environment behind the SDK: the remote service and the files. *)
Class Outside (E : Type) := {
  sdk_call : Method → call_args → E → result Response * E;
  open_file : string → string → E → result handle * E;
  close_file : handle → E → E
}.

(** The closures that the resolver builds, with what they capture. *)
Inductive caller : Type :=
| PathByKeyword (m : Method) (p : string)  (* lambda fp, m=method, p=path_param: m called with keyword p = fp *)
| PathPositional (m : Method)              (* lambda fp, m=method: m(fp) *)
| HandleUpload (m : Method) (p : option string). (* _upload(fp, m=method, p=handle_param) *)

(** [params[1] if len(params) > 1 and params[0] == "self"
     else (params[0] if params else None)] *)
Definition first_parameter (params : list string) : option string :=
  match params with
  | p0 :: p1 :: _ => if bool_decide (p0 = "self") then Some p1 else Some p0
  | [p0] => Some p0
  | [] => None
  end.

(** Truth value of a name that may be [None]. *)
Definition truthy (p : option string) : bool :=
  match p with
  | Some name => negb (bool_decide (name = ""))
  | None => false
  end.

Section Resolver.
Context {E : Type} `{Outside E}.

(** [list(inspect.signature(m).parameters.keys())] *)
Definition inspect_signature (m : Method) : M io_event E (list string) :=
  emit (IoSignature m) ;;; py_signature (signature m).

Definition _make_path_caller (method : Method) : M io_event E caller :=
  params <~ inspect_signature method ;;
  let path_param := first_parameter params in
  match path_param with
  | Some p => if truthy path_param then ret (PathByKeyword method p)
              else ret (PathPositional method)
  | None => ret (PathPositional method)
  end.

Definition _make_handle_caller (method : Method) : M io_event E caller :=
  params <~ inspect_signature method ;;
  let handle_param := first_parameter params in
  ret (HandleUpload method handle_param).

Definition invoke (m : Method) (args : call_args) : M io_event E Response :=
  emit (IoInvoke m args) ;;; outside (sdk_call m args).

Definition py_open (fp mode : string) : M io_event E handle :=
  fh <~ outside (open_file fp mode) ;;
  emit (IoOpen fp mode fh) ;;;
  ret fh.

Definition py_close (fh : handle) : M io_event E unit :=
  emit (IoClose fh) ;;; outside (λ e, (Returned tt, close_file fh e)).

(** Calling a built closure on a file path. *)
Definition call_upload (c : caller) (fp : string) : M io_event E Response :=
  match c with
  | PathByKeyword m p => invoke m (Keyword p (ArgPath fp))
  | PathPositional m => invoke m (Positional (ArgPath fp))
  | HandleUpload m p =>
      (* with open(fp, "rb") as fh: *)
      fh <~ py_open fp "rb" ;;
      try_finally
        (match p with
         | Some name =>
             if truthy p then invoke m (Keyword name (ArgHandle fh))
             else invoke m (Positional (ArgHandle fh))
         | None => invoke m (Positional (ArgHandle fh))
         end)
        (py_close fh)
  end.

(** A [for name in names:] probe loop: the first attribute that is not
    [None]. *)
Fixpoint probe (a1000 : Client) (names : list string) : option Method :=
  match names with
  | [] => None
  | name :: rest =>
      match a1000 !! name with
      | Some method => Some method
      | None => probe a1000 rest
      end
  end.

Definition resolve_upload_fn {D} (a1000 : Client)
  : M (event D io_event) E caller :=
  match probe a1000 ["upload_sample_from_path"; "submit_file_from_path"] with
  | Some method => lift EvOp (_make_path_caller method)
  | None =>
      match probe a1000 ["upload_sample_from_file"; "submit_file_from_handle"] with
      | Some method => lift EvOp (_make_handle_caller method)
      | None =>
          emit (EvStderr "ERROR: Could not find a supported upload method on the A1000 SDK object.") ;;;
          emit (EvStderr "       Installed SDK may be too old or too new. Methods checked:") ;;;
          emit (EvStderr "       upload_sample_from_path, submit_file_from_path,") ;;;
          emit (EvStderr "       upload_sample_from_file, submit_file_from_handle") ;;;
          sys_exit 1
      end
  end.
End Resolver.

(* ------------------------------------------------------------------ *)
(** ** Output helpers *)

(** [s * n] on a [str] *)
Fixpoint str_repeat (s : string) (n : nat) : string :=
  match n with
  | O => ""
  | S n' => s +:+ str_repeat s n'
  end.

(** [len(s)] on UTF-8 text: the bytes that start a code point. *)
Fixpoint py_len (s : string) : nat :=
  match s with
  | EmptyString => O
  | String c rest =>
      let b := Ascii.nat_of_ascii c in
      if bool_decide (128 ≤ b)%nat && bool_decide (b < 192)%nat then py_len rest
      else S (py_len rest)
  end.

(** The ASCII white space that [str.rstrip()] removes. *)
Definition is_py_space (c : Ascii.ascii) : bool :=
  let b := Ascii.nat_of_ascii c in
  bool_decide (9 ≤ b ≤ 13)%nat || bool_decide (28 ≤ b ≤ 32)%nat.

Fixpoint lstrip_space (s : string) : string :=
  match s with
  | String c rest => if is_py_space c then lstrip_space rest else s
  | EmptyString => ""
  end.

Definition py_rstrip (s : string) : string :=
  String.rev (lstrip_space (String.rev s)).

(** [sep.join(parts)] *)
Fixpoint str_join (sep : string) (parts : list string) : string :=
  match parts with
  | [] => ""
  | [part] => part
  | part :: rest => part +:+ sep +:+ str_join sep rest
  end.

(** [f"{n:>{width}}"] *)
Definition rjust (width : nat) (text : string) : string :=
  str_repeat " " (width - py_len text) +:+ text.

Section Output.
Context {D X E : Type}.
Variable fs : FileSystem.

Definition print_header (target_path : string) (recursive : bool)
    (file_count : Z) : M (event D X) E unit :=
  print "" ;;;
  print "Spectra Analyze Bulk Uploader" ;;;
  print (str_repeat "─" 29) ;;;
  let mode := if isfile fs target_path then "(single file)" else "" in
  print (py_rstrip ("Path:       " +:+ target_path +:+ " " +:+ mode)) ;;;
  (if negb (isfile fs target_path) then
     print ("Recursive:  " +:+ (if recursive then "yes" else "no"))
   else ret tt) ;;;
  print "".

Definition summary_text (uploaded failed skipped total : Z) : string :=
  let parts := [pretty uploaded +:+ " uploaded"; pretty failed +:+ " failed"] in
  let parts := if bool_decide (0 < skipped)
               then parts ++ [pretty skipped +:+ " skipped"] else parts in
  let parts := parts ++ [pretty total +:+ " total"] in
  str_join " │ " parts.

Definition print_summary (uploaded failed skipped total : Z)
  : M (event D X) E unit :=
  let summary := summary_text uploaded failed skipped total in
  let bar := str_repeat "═" (py_len summary + 8) in
  print "" ;;;
  print bar ;;;
  print ("  Done.  " +:+ summary) ;;;
  print bar.
End Output.

(* ------------------------------------------------------------------ *)
(** ** main *)

(** The namespace that [parse_args] returns. *)
Record Args (D : Type) : Type := mkArgs {
  target_path : string;
  host : string;
  token : string;
  verify_ssl : bool;
  recursive : bool;
  exclude : list string;
  sleep : D;
  retries : Z;
  retry_delay : D;
  timeout : Z
}.
Arguments target_path {D} _.
Arguments host {D} _.
Arguments token {D} _.
Arguments verify_ssl {D} _.
Arguments recursive {D} _.
Arguments exclude {D} _.
Arguments sleep {D} _.
Arguments retries {D} _.
Arguments retry_delay {D} _.
Arguments timeout {D} _.

Inductive kwvalue : Type := KwStr (s : string) | KwBool (b : bool).

(** The class [A1000] of the SDK, when the import succeeds. *)
Record SdkClass : Type := {
  init_signature : option (list string);   (* inspect.signature(A1000.__init__) *)
  construct : list (string * kwvalue) → Client   (* the object A1000 builds from init_kwargs, as seen by getattr *)
}.

(** The exit status the operating system sees. *)
Definition exit_status {A} (r : result A) : Z :=
  match r with
  | Returned _ => 0
  | SysExit code => code
  | Raised _ => 1
  end.

Definition AttributeError (msg : string) : PyException :=
  {| exc_type_name := "AttributeError"; exc_str := msg;
     isinstance_Timeout := false; isinstance_ConnectionError := false;
     exc_response := None |}.

Section Main.
Context {D : Type} `{Seconds D} {E : Type} `{Outside E}.
Variable fnmatch : string → string → bool.
Variable fs : FileSystem.
Variable args : Args D.

Definition patch_timeout (timeout : Z) : M (event D io_event) E unit :=
  emit (EvPatchTimeout timeout).

(** The [for idx, fpath in enumerate(files, 1):] loop, on the files
    still to come, with the counters [uploaded] and [failed]. *)
Fixpoint upload_loop (upload_fn : caller) (base_path : string)
    (n_files : Z) (width : nat) (idx : Z) (todo : list string)
    (uploaded failed : Z) : M (event D io_event) E (Z * Z) :=
  match todo with
  | [] => ret (uploaded, failed)
  | fpath :: rest =>
      let rel := relpath fs fpath base_path in
      outcome <~ upload_with_retry (call_upload upload_fn) fpath
                   (retries args) (retry_delay args) ;;
      let '(response, err) := outcome in
      let counter := "[" +:+ rjust width (pretty idx) +:+ "/"
                     +:+ pretty n_files +:+ "]" in
      counts <~ match err with
                | None =>
                    match response with
                    | Some resp =>
                        print (counter +:+ " [OK]   " +:+ rel +:+ " (HTTP "
                               +:+ pretty (status_code resp) +:+ ")") ;;;
                        ret (uploaded + 1, failed)
                    | None =>
                        raise (AttributeError
                          "'NoneType' object has no attribute 'status_code'")
                    end
                | Some err =>
                    print (counter +:+ " [FAIL] " +:+ rel +:+ " (" +:+ err
                           +:+ ")") ;;;
                    ret (uploaded, failed + 1)
                end ;;
      (if bool_decide (idx < n_files) then time_sleep (sleep args)
       else ret tt) ;;;
      upload_loop upload_fn base_path n_files width (idx + 1) rest
        counts.1 counts.2
  end.

(** The keyword arguments of the SDK constructor: [user_agent] only if
    the constructor accepts it. *)
Definition init_kwargs (init_params : list string) : list (string * kwvalue) :=
  let kwargs := [("host", KwStr (host args));
                 ("token", KwStr (token args));
                 ("verify", KwBool (verify_ssl args))] in
  if bool_decide ("user_agent" ∈ init_params)
  then kwargs ++ [("user_agent", KwStr "rl-bulk-uploader/1.0")]
  else kwargs.

(** The header and the "Found ..." lines printed after collection. *)
Definition announce (files : list string) (skipped : Z)
  : M (event D io_event) E unit :=
  let n_files := Z.of_nat (length files) in
  let total_seen := n_files + skipped in
  print_header fs (target_path args) (recursive args) n_files ;;;
  print "Scanning ..." ;;;
  (if bool_decide (0 < skipped) then
     print ("Found " +:+ pretty total_seen +:+ " files ("
            +:+ pretty skipped +:+ " excluded)")
   else print ("Found " +:+ pretty n_files +:+ " files")) ;;;
  print "".

Definition main (sdk : option SdkClass) : M (event D io_event) E unit :=
  match sdk with
  | None =>
      emit (EvStderr "ERROR: reversinglabs-sdk-py3 is not installed.") ;;;
      emit (EvStderr "       Run: pip install reversinglabs-sdk-py3") ;;;
      sys_exit 1
  | Some A1000 =>
      patch_timeout (timeout args) ;;;
      init_params <~ py_signature (init_signature A1000) ;;
      let a1000 := construct A1000 (init_kwargs init_params) in
      upload_fn <~ resolve_upload_fn a1000 ;;
      collected <~ collect_files fnmatch fs (target_path args)
                     (recursive args) (exclude args) ;;
      let '(files, skipped) := collected in
      let n_files := Z.of_nat (length files) in
      let total_seen := n_files + skipped in
      announce files skipped ;;;
      match files with
      | [] => print_summary 0 0 skipped total_seen
      | _ :: _ =>
          let width := py_len (pretty n_files) in
          let base_path := if isdir fs (target_path args)
                           then target_path args
                           else dirname (target_path args) in
          counts <~ upload_loop upload_fn base_path n_files width 1 files 0 0 ;;
          let '(uploaded, failed) := counts in
          print_summary uploaded failed skipped total_seen ;;;
          if bool_decide (0 < failed) then sys_exit 1 else ret tt
      end
  end.
End Main.

(* ------------------------------------------------------------------ *)
(** ** parse_args: the required settings *)

(** What the user typed of the four options that the end of
    [parse_args] reads ([None]: the option was not given). *)
Record CommandLine : Type := {
  cli_path : option string;       (* PATH, positional *)
  cli_path_flag : option string;  (* --path *)
  cli_host : option string;       (* --host *)
  cli_token : option string       (* --token *)
}.

(** How [parse_args] ends for these options: it returns, or it calls
    [p.error(message)] (usage and message on stderr, exit status 2). *)
Inductive parsed : Type :=
| Parsed (target_path host token : string)
| ArgumentError (message : string).

(** [a or b] on values that are a string or [None]. *)
Definition py_or (a b : option string) : option string :=
  if truthy a then a else b.

(** Lines 79-90 of [parse_args], with the defaults of [--host] and
    [--token] (lines 32 and 36) in place: the namespace holds what was
    typed, else the environment variable, else [None]. *)
Definition parse_args_required (environ : gmap string string)
    (cli : CommandLine) : parsed :=
  let host := match cli_host cli with
              | Some h => Some h
              | None => environ !! "RL_HOST"
              end in
  let token := match cli_token cli with
               | Some t => Some t
               | None => environ !! "RL_TOKEN"
               end in
  let target := py_or (py_or (cli_path cli) (cli_path_flag cli))
                      (environ !! "RL_PATH") in
  if negb (truthy target) then
    ArgumentError "PATH is required (positional, --path, or set RL_PATH)"
  else if negb (truthy host) then
    ArgumentError "--host is required (or set RL_HOST)"
  else if negb (truthy token) then
    ArgumentError "--token is required (or set RL_TOKEN)"
  else Parsed (default "" target) (default "" host) (default "" token).

(* ------------------------------------------------------------------ *)
(** ** patch_timeout: the replacement of [requests.Session.send] *)

Section PatchedSend.
(** The session, the request, the values of keyword arguments, and what
    [send] returns. *)
Context {S Q V R : Type}.

(** [kwargs.setdefault(key, value)], as the dictionary it leaves. *)
Definition setdefault (key : string) (value : V) (kwargs : gmap string V)
  : gmap string V :=
  match kwargs !! key with
  | Some _ => kwargs
  | None => <[key := value]> kwargs
  end.

(** [patched_send], closed over [original_send] and [timeout];
    [patch_timeout(timeout)] makes it the new [requests.Session.send]. *)
Definition patched_send (original_send : S → Q → gmap string V → R)
    (timeout : V) : S → Q → gmap string V → R :=
  λ self request kwargs,
    original_send self request (setdefault "timeout" timeout kwargs).
End PatchedSend.

(* ------------------------------------------------------------------ *)
(** ** Fixtures *)

(** A scripted upload operation: the environment is the list of outcomes
    of the calls still to come; each call consumes one and leaves the
    event [tt]. *)
Definition script_exhausted : PyException :=
  {| exc_type_name := "RuntimeError"; exc_str := "script exhausted";
     isinstance_Timeout := false; isinstance_ConnectionError := false;
     exc_response := None |}.

Definition scripted_upload (fp : string)
  : M unit (list (result Response)) Response :=
  λ w, match env w with
       | r :: rest => (r, {| env := rest; trace := trace w ++ [tt] |})
       | [] => (Raised script_exhausted, w)
       end.

Definition http (code : Z) : result Response :=
  Returned {| status_code := code; body := "" |}.

Definition start {Ev E} (e : E) : world Ev E := {| env := e; trace := [] |}.

(** A scripted service behind the SDK: every entry-point call consumes
    the next outcome; [open] always yields handle 3. *)
#[global] Instance scripted_outside : Outside (list (result Response)) := {
  sdk_call _ _ e :=
    match e with
    | r :: rest => (r, rest)
    | [] => (Raised script_exhausted, [])
    end;
  open_file _ _ e := (Returned 3%nat, e);
  close_file _ e := e
}.

(** *** A glob matcher for the examples

    [fnmatch.fnmatch] on a POSIX system (where [os.path.normcase] is the
    identity, so matching is case-sensitive), for ASCII names and patterns
    whose ranges are not empty: [*] matches any run of characters, [?]
    any one character, [[seq]] any character of [seq], [[!seq]] any
    character not in [seq]; an unclosed bracket stands for itself. *)
Inductive glob_token : Type :=
| TStar
| TAny
| TSet (negated : bool) (ranges : list (Ascii.ascii * Ascii.ascii))
| TChar (c : Ascii.ascii).

Definition chr (n : nat) : Ascii.ascii := Ascii.ascii_of_nat n.
Definition is_chr (n : nat) (c : Ascii.ascii) : bool := bool_decide (c = chr n).

(** The members of a bracket body: [c1-c2] is a range, anything else
    stands for itself. *)
Fixpoint set_members (stuff : list Ascii.ascii)
  : list (Ascii.ascii * Ascii.ascii) :=
  match stuff with
  | [] => []
  | c1 :: rest1 =>
      match rest1 with
      | hyphen :: c2 :: rest =>
          if is_chr 45 hyphen then (c1, c2) :: set_members rest
          else (c1, c1) :: set_members rest1
      | _ => (c1, c1) :: set_members rest1
      end
  end.

(** The characters up to the first closing bracket, if there is one. *)
Fixpoint until_close (pat : list Ascii.ascii) : option (list Ascii.ascii) :=
  match pat with
  | [] => None
  | c :: rest => if is_chr 93 c then Some []
                 else cons c <$> until_close rest
  end.

(** What stands between an opening bracket and the bracket that closes
    it: an optional [!], an optional literal closing bracket, and the
    characters up to the next closing bracket. *)
Definition set_stuff (rest : list Ascii.ascii) : option (list Ascii.ascii) :=
  let '(bang, r1) := match rest with
                     | c :: r => if is_chr 33 c then ([c], r) else ([], rest)
                     | [] => ([], rest)
                     end in
  let '(first, r2) := match r1 with
                      | c :: r => if is_chr 93 c then ([c], r) else ([], r1)
                      | [] => ([], r1)
                      end in
  (λ body, bang ++ first ++ body) <$> until_close r2.

Definition make_set (stuff : list Ascii.ascii) : glob_token :=
  match stuff with
  | c :: body => if is_chr 33 c then TSet true (set_members body)
                 else TSet false (set_members stuff)
  | [] => TSet false []
  end.

(** [skip] counts the characters already consumed by a bracket. *)
Fixpoint tokenize (skip : nat) (pat : list Ascii.ascii) : list glob_token :=
  match pat with
  | [] => []
  | c :: rest =>
      match skip with
      | S n => tokenize n rest
      | O =>
          if is_chr 42 c then TStar :: tokenize 0 rest
          else if is_chr 63 c then TAny :: tokenize 0 rest
          else if is_chr 91 c then
            match set_stuff rest with
            | Some stuff => make_set stuff :: tokenize (S (length stuff)) rest
            | None => TChar c :: tokenize 0 rest
            end
          else TChar c :: tokenize 0 rest
      end
  end.

Definition in_ranges (c : Ascii.ascii)
    (ranges : list (Ascii.ascii * Ascii.ascii)) : bool :=
  existsb (λ r, bool_decide (Ascii.nat_of_ascii r.1 ≤ Ascii.nat_of_ascii c
                             ≤ Ascii.nat_of_ascii r.2)%nat) ranges.

Fixpoint glob_match (toks : list glob_token) (name : list Ascii.ascii) : bool :=
  match toks with
  | [] => match name with [] => true | _ :: _ => false end
  | TStar :: toks' =>
      (fix star (name : list Ascii.ascii) : bool :=
         glob_match toks' name
         || match name with [] => false | _ :: name' => star name' end) name
  | TAny :: toks' =>
      match name with [] => false | _ :: name' => glob_match toks' name' end
  | TSet negated ranges :: toks' =>
      match name with
      | [] => false
      | c :: name' => xorb negated (in_ranges c ranges) && glob_match toks' name'
      end
  | TChar c :: toks' =>
      match name with
      | [] => false
      | d :: name' => bool_decide (c = d) && glob_match toks' name'
      end
  end.

Definition posix_fnmatch (name pattern : string) : bool :=
  glob_match (tokenize 0 (String.list_ascii_of_string pattern))
             (String.list_ascii_of_string name).

(** *** A small tree and a run over it

    The directory [root] holds [a.txt], [b.exe], [c.tmp] and the
    directory [sub.tmp] with [keep.txt] and [old.tmp]; the current
    directory is [/work]. *)
Definition demo_fs : FileSystem := {|
  isfile p := bool_decide (p ∈ ["root/a.txt"; "root/b.exe"; "root/c.tmp";
                                "root/sub.tmp/keep.txt"; "root/sub.tmp/old.tmp"]);
  isdir p := bool_decide (p ∈ ["root"; "root/sub.tmp"]);
  listdir p :=
    if bool_decide (p = "root") then ["c.tmp"; "sub.tmp"; "b.exe"; "a.txt"]
    else if bool_decide (p = "root/sub.tmp") then ["old.tmp"; "keep.txt"]
    else [];
  walk p :=
    if bool_decide (p = "root") then
      [("root", ["sub.tmp"], ["c.tmp"; "b.exe"; "a.txt"]);
       ("root/sub.tmp", [], ["old.tmp"; "keep.txt"])]
    else [];
  abspath p := "/work/" +:+ p;
  relpath p start_dir :=
    String.substring (String.length ("/work/" +:+ start_dir +:+ "/"))
                     (String.length p) p
|}.

(** The same tree, its entries enumerated in another order. *)
Definition demo_listdir' (p : string) : list string :=
  if bool_decide (p = "root") then ["a.txt"; "b.exe"; "sub.tmp"; "c.tmp"]
  else if bool_decide (p = "root/sub.tmp") then ["keep.txt"; "old.tmp"]
  else [].

Definition demo_walk' (p : string)
  : list (string * list string * list string) :=
  if bool_decide (p = "root") then
    [("root", ["sub.tmp"], ["a.txt"; "c.tmp"; "b.exe"]);
     ("root/sub.tmp", [], ["keep.txt"; "old.tmp"])]
  else [].

Definition demo_args : Args Z := {|
  target_path := "root"; host := "https://a1000.example"; token := "secret";
  verify_ssl := true; recursive := false; exclude := ["*.tmp"];
  sleep := 2; retries := 3; retry_delay := 5; timeout := 300
|}.

Definition upload_sample_from_path : Method :=
  {| method_name := "upload_sample_from_path";
     signature := Some ["file_path"; "custom_filename"; "tags"] |}.

Definition submit_file_from_handle : Method :=
  {| method_name := "submit_file_from_handle";
     signature := Some ["file_handle"] |}.

(** A method whose signature has no parameter. *)
Definition bare_method : Method :=
  {| method_name := "upload_sample_from_path"; signature := Some [] |}.

(** A method that gives no signature. *)
Definition opaque_method : Method :=
  {| method_name := "upload_sample_from_path"; signature := None |}.

(** An SDK whose object has the path-based entry point. *)
Definition demo_sdk : SdkClass := {|
  init_signature := Some ["self"; "host"; "token"; "verify"; "user_agent"];
  construct _ := {[ "upload_sample_from_path" := upload_sample_from_path ]}
|}.

(** An SDK whose object has none of the entry points. *)
Definition old_sdk : SdkClass := {|
  init_signature := Some ["self"; "host"; "token"; "verify"];
  construct _ := ∅
|}.

(** *** Further fixtures *)

Definition timed_out : PyException :=
  {| exc_type_name := "ReadTimeout"; exc_str := "read timed out";
     isinstance_Timeout := true; isinstance_ConnectionError := false;
     exc_response := None |}.

(** An SDK whose entry point gives no signature. *)
Definition opaque_sdk : SdkClass := {|
  init_signature := Some ["self"; "host"; "token"; "verify"];
  construct _ := {[ "upload_sample_from_path" := opaque_method ]}
|}.

(** The arguments of the small run, with a path that does not exist. *)
Definition lost_args : Args Z := {|
  target_path := "nowhere"; host := "https://a1000.example"; token := "secret";
  verify_ssl := true; recursive := false; exclude := ["*.tmp"];
  sleep := 2; retries := 3; retry_delay := 5; timeout := 300
|}.

(** A service that answers every call with status 503. *)
#[global] Instance overloaded : Outside unit := {
  sdk_call _ _ e := (http 503, e);
  open_file _ _ e := (Returned 3%nat, e);
  close_file _ e := e
}.

Definition demo_environ : gmap string string :=
  {[ "RL_PATH" := "samples"; "RL_HOST" := "https://a1000.example";
     "RL_TOKEN" := "secret" ]}.

(** Both forms of the path and the token typed, the host left to the
    environment. *)
Definition demo_cli : CommandLine :=
  {| cli_path := Some "root"; cli_path_flag := Some "other";
     cli_host := None; cli_token := Some "typed" |}.

(** An empty positional path and nothing else. *)
Definition env_only_cli : CommandLine :=
  {| cli_path := Some ""; cli_path_flag := None;
     cli_host := None; cli_token := None |}.

Definition demo_files : list string := ["/work/root/a.txt"; "/work/root/b.exe"].

(* ------------------------------------------------------------------ *)
(** ** Vocabulary of the statements *)

(** The world in which an attempt that called [upload_fn] from [w] and
    got [w1] back continues: the call and the operation's events are
    appended to the trace. *)
Definition after_call {D X E} (fp : string) (w : world (event D X) E)
    (u : world X E) : world (event D X) E :=
  {| env := env u; trace := (trace w ++ [EvCall fp]) ++ (EvOp <$> trace u) |}.

Definition blank {D X E} (w : world (event D X) E) : world X E :=
  {| env := env w; trace := [] |}.

Section Schedule.
Context {D : Type} `{Seconds D} {X : Type}.

(** *** The schedule of a run: attempts and waits, in order *)

Inductive step : Type := Attempt (fp : string) | Wait (d : D).

Definition step_of (ev : event D X) : option step :=
match ev with
| EvCall fp => Some (Attempt fp)
| EvSleep d => Some (Wait d)
| _ => None
end.

Definition schedule_of (evs : list (event D X)) : list step :=
omap step_of evs.

(** The longest schedule the loop can follow over [attempts]. *)
Definition full_schedule fp retries delay (attempts : list Z) : list step :=
attempts ≫= λ k,
  Attempt fp :: (if bool_decide (k < retries)
                 then [Wait (mul_attempt delay k)] else []).

Definition attempts_in (sch : list step) : nat :=
length (omap (λ s, match s with Attempt fp => Some fp | Wait _ => None end) sch).

End Schedule.

(** A string contains the separator. *)
Fixpoint has_sep (s : string) : bool :=
  match s with
  | EmptyString => false
  | String c rest => is_sep c || has_sep rest
  end.

(** The [(root, fname)] pairs that the recursive loop visits, in order. *)
Definition visited (triples : list (string * list string * list string))
  : list (string * string) :=
  triples ≫= λ '(root, _dirs, filenames), pair root <$> filenames.

(** The same tree, enumerated in another order. *)
Definition with_listing (fs : FileSystem)
    (listdir' : string → list string)
    (walk' : string → list (string * list string * list string))
  : FileSystem :=
  {| isfile := isfile fs; isdir := isdir fs; listdir := listdir';
     walk := walk'; abspath := abspath fs; relpath := relpath fs |}.

Section Kept.
Context (fnmatch : string → string → bool).
Implicit Types (fs : FileSystem) (excludes : list string)
(pairs : list (string * string)).

(** A visited entry is a regular file. *)
Definition regular fs (pr : string * string) : bool :=
isfile fs (path_join pr.1 pr.2).

(** What the directory loops append and count, said with filters. *)
Definition kept fs excludes pairs : list string :=
(λ pr, abspath fs (path_join pr.1 pr.2))
  <$> filter (λ pr, regular fs pr && negb (excluded fnmatch excludes pr.2)) pairs.

Definition skipped_count fs excludes pairs : Z :=
Z.of_nat (length
  (filter (λ pr, regular fs pr && excluded fnmatch excludes pr.2) pairs)).

(** The entries of the directory modes, as pairs. *)
Definition entries fs (target : string) (recursive : bool)
: list (string * string) :=
if recursive then visited (walk fs target)
else pair target <$> listdir fs target.

End Kept.

(** One entry of the SDK entry point: the event, then the call itself. *)
Definition entered {E} `{Outside E} (m : Method) (args : call_args)
    (u : world io_event E) : result Response * world io_event E :=
  let '(r, e') := sdk_call m args (env u) in
  (r, {| env := e'; trace := trace u ++ [IoInvoke m args] |}).

(** Introspection of the parameter name is unavailable: no signature can
    be had, or the signature yields no parameter name. *)
Definition introspection_unavailable (m : Method) : Prop :=
  match signature m with
  | None => True
  | Some params => truthy (first_parameter params) = false
  end.

(** How the handle-based closure passes the open handle. *)
Definition handle_args (p : option string) (fh : handle) : call_args :=
  match p with
  | Some name => if truthy p then Keyword name (ArgHandle fh)
                 else Positional (ArgHandle fh)
  | None => Positional (ArgHandle fh)
  end.

(** The lines of the diagnostic printed when no entry point is found. *)
Definition missing_method_lines : list string :=
  ["ERROR: Could not find a supported upload method on the A1000 SDK object.";
   "       Installed SDK may be too old or too new. Methods checked:";
   "       upload_sample_from_path, submit_file_from_path,";
   "       upload_sample_from_file, submit_file_from_handle"].

(** [needle in hay] *)
Definition occurs (needle hay : string) : bool :=
  match String.index 0 needle hay with Some _ => true | None => false end.

(** The four lines of the summary, as events. *)
Definition summary_events {D X} (uploaded failed skipped total : Z)
  : list (event D X) :=
  let summary := summary_text uploaded failed skipped total in
  let bar := str_repeat "═" (py_len summary + 8) in
  EvPrint <$> [""; bar; "  Done.  " +:+ summary; bar].

Definition candidate_names : list string :=
  ["upload_sample_from_path"; "submit_file_from_path";
   "upload_sample_from_file"; "submit_file_from_handle"].

(** The method that the two probe loops settle on, if any. *)
Definition chosen (a1000 : Client) : option Method :=
  match probe a1000 ["upload_sample_from_path"; "submit_file_from_path"] with
  | Some m => Some m
  | None => probe a1000 ["upload_sample_from_file"; "submit_file_from_handle"]
  end.

(** The schedules of the files, one after the other, with a wait of
    [pause] between two files and none after the last. *)
Fixpoint between {D} (pause : D) (parts : list (list (step (D:=D))))
  : list (step (D:=D)) :=
  match parts with
  | [] => []
  | [part] => part
  | part :: rest => part ++ Wait pause :: between pause rest
  end.

(** The events of the upload operation among the events of the program. *)
Definition ops_of {D X} (evs : list (event D X)) : list X :=
  omap (λ ev, match ev with EvOp x => Some x | _ => None end) evs.

(** The opens ([true]) and closes ([false]) among the events of the
    operation, with their handles. *)
Definition handle_use (xs : list io_event) : list (bool * handle) :=
  omap (λ x, match x with
             | IoOpen _ _ fh => Some (true, fh)
             | IoClose fh => Some (false, fh)
             | _ => None
             end) xs.

(** Every handle that is opened is closed before the next one is
    opened, and nothing else is closed. *)
Inductive opened_then_closed : list (bool * handle) → Prop :=
| otc_nil : opened_then_closed []
| otc_pair fh rest :
    opened_then_closed rest →
    opened_then_closed ((true, fh) :: (false, fh) :: rest).

(** The paths of the attempts of a schedule, in order. *)
Definition attempted {D} (sch : list (step (D:=D))) : list string :=
  omap (λ s, match s with Attempt fp => Some fp | Wait _ => None end) sch.

(* ------------------------------------------------------------------ *)
(** * Properties *)

Section RetryProperties.
Context {D : Type} `{Seconds D} {X E : Type}.
Implicit Types (upload_fn : string → M X E Response) (fp : string)
  (retries : Z) (delay : D) (w : world (event D X) E).

Lemma attempt_once_returned upload_fn fp w response u :
  upload_fn fp (blank w) = (Returned response, u) →
  attempt_once upload_fn fp w
  = (Returned (on_response response), after_call fp w u).
Proof.
  intros Hcall. unfold attempt_once, try_except, bind, emit, lift, ret, blank in *.
  simpl. rewrite Hcall. reflexivity.
Qed.

Lemma attempt_once_raised upload_fn fp w exc u :
  upload_fn fp (blank w) = (Raised exc, u) →
  attempt_once upload_fn fp w
  = (Returned (on_exception exc), after_call fp w u).
Proof.
  intros Hcall. unfold attempt_once, try_except, bind, emit, lift, ret, blank in *.
  simpl. rewrite Hcall. reflexivity.
Qed.

Lemma retry_loop_return upload_fn fp retries delay attempt rest last_err w
    response err w1 :
  attempt_once upload_fn fp w = (Returned (Return response err), w1) →
  retry_loop upload_fn fp retries delay (attempt :: rest) last_err w
  = (Returned (response, err), w1).
Proof. intros Hat. simpl. unfold bind. rewrite Hat. reflexivity. Qed.

Lemma retryable_status_spec code :
  retryable_status code = true ↔ code = 429 ∨ 500 ≤ code.
Proof.
  unfold retryable_status. rewrite orb_true_iff, !bool_decide_eq_true.
  reflexivity.
Qed.

Lemma on_response_success response :
  200 ≤ status_code response < 300 →
  on_response response = Return (Some response) None.
Proof.
  intros [Hlo Hhi]. unfold on_response.
  rewrite (bool_decide_eq_true_2 _ Hlo), (bool_decide_eq_true_2 _ Hhi).
  reflexivity.
Qed.

Lemma on_response_retryable response :
  status_code response = 429 ∨ 500 ≤ status_code response →
  on_response response = Retryable ("HTTP " +:+ pretty (status_code response)).
Proof.
  intros Hre. unfold on_response.
  rewrite (proj2 (retryable_status_spec _) Hre).
  case_bool_decide; [|reflexivity].
  rewrite bool_decide_eq_false_2; [reflexivity | lia].
Qed.

(** Every status that is neither a success nor retryable ends the
    function at once, the response in hand. *)
Lemma on_response_terminal response :
  ¬ 200 ≤ status_code response < 300 →
  ¬ (status_code response = 429 ∨ 500 ≤ status_code response) →
  on_response response
  = Return (Some response) (Some ("HTTP " +:+ pretty (status_code response))).
Proof.
  intros Hok Hre. unfold on_response.
  destruct (retryable_status _) eqn:Hr.
  { apply retryable_status_spec in Hr. contradiction. }
  repeat case_bool_decide; simpl; try reflexivity. lia.
Qed.

(** C1. An attempt whose call returns normally with a status code: a
    status in [200,300) ends the function at once with the response and
    no error; status 429 or any status >= 500 is classified retryable
    (with last error "HTTP <status>"); any other status >= 400 ends the
    function at once with the error "HTTP <status>", nothing more being
    called or slept. *)
Theorem upload_with_retry_classifies_status
    upload_fn fp retries delay attempt rest last_err w response u :
  upload_fn fp (blank w) = (Returned response, u) →
  let code := status_code response in
  (200 ≤ code < 300 →
     retry_loop upload_fn fp retries delay (attempt :: rest) last_err w
     = (Returned (Some response, None), after_call fp w u))
  ∧ (code = 429 ∨ 500 ≤ code →
     attempt_once upload_fn fp w
     = (Returned (Retryable ("HTTP " +:+ pretty code)), after_call fp w u))
  ∧ (400 ≤ code → ¬ (code = 429 ∨ 500 ≤ code) →
     retry_loop upload_fn fp retries delay (attempt :: rest) last_err w
     = (Returned (Some response, Some ("HTTP " +:+ pretty code)),
        after_call fp w u)).
Proof.
  intros Hcall code. apply attempt_once_returned in Hcall.
  split; [|split].
  - intros Hok. apply retry_loop_return. rewrite Hcall.
    by rewrite on_response_success.
  - intros Hre. rewrite Hcall. by rewrite on_response_retryable.
  - intros H400 Hre. apply retry_loop_return. rewrite Hcall.
    rewrite on_response_terminal; [done | subst code; lia | done].
Qed.

(** C10. An attempt whose call returns normally with a status in
    [300,400) ends the function at once with the error "HTTP <status>"
    and the response in hand, exactly as a 4xx status other than 429
    does: nothing more is called or slept. *)
Theorem upload_with_retry_redirect_status_terminal
    upload_fn fp retries delay attempt rest last_err w response u :
  upload_fn fp (blank w) = (Returned response, u) →
  300 ≤ status_code response < 400 →
  retry_loop upload_fn fp retries delay (attempt :: rest) last_err w
  = (Returned (Some response,
               Some ("HTTP " +:+ pretty (status_code response))),
     after_call fp w u).
Proof.
  intros Hcall H3xx. apply attempt_once_returned in Hcall.
  apply retry_loop_return. rewrite Hcall.
  rewrite on_response_terminal; [done | lia | lia].
Qed.

(** C3. An attempt that raises an exception which is neither a timeout
    nor a connection error: an embedded response with status 429 or
    >= 500 is classified retryable, the last error recording the
    wrapping exception type; an embedded response with any other status
    ends the function at once with the error "HTTP <status>"; with no
    embedded response, or one without a status code, the function ends
    at once with the exception's message as the error. *)
Theorem upload_with_retry_classifies_exception
    upload_fn fp retries delay attempt rest last_err w exc u :
  upload_fn fp (blank w) = (Raised exc, u) →
  isinstance_Timeout exc = false →
  isinstance_ConnectionError exc = false →
  (∀ inner code,
     exc_response exc = Some inner → inner_status_code inner = Some code →
     (code = 429 ∨ 500 ≤ code →
        attempt_once upload_fn fp w
        = (Returned (Retryable ("HTTP " +:+ pretty code +:+ " (via "
                                +:+ exc_type_name exc +:+ ")")),
           after_call fp w u))
     ∧ (¬ (code = 429 ∨ 500 ≤ code) →
        retry_loop upload_fn fp retries delay (attempt :: rest) last_err w
        = (Returned (None, Some ("HTTP " +:+ pretty code)),
           after_call fp w u)))
  ∧ ((exc_response exc = None
      ∨ ∃ inner, exc_response exc = Some inner
                 ∧ inner_status_code inner = None) →
     retry_loop upload_fn fp retries delay (attempt :: rest) last_err w
     = (Returned (None, Some (exc_str exc)), after_call fp w u)).
Proof.
  intros Hcall Hto Hce. apply attempt_once_raised in Hcall.
  assert (Hexc : ∀ o, exc_response exc ≫= inner_status_code = o →
            on_exception exc
            = match o with
              | Some code =>
                  if retryable_status code
                  then Retryable ("HTTP " +:+ pretty code +:+ " (via "
                                  +:+ exc_type_name exc +:+ ")")
                  else Return None (Some ("HTTP " +:+ pretty code))
              | None => Return None (Some (exc_str exc))
              end).
  { intros o <-. unfold on_exception. by rewrite Hto, Hce. }
  split.
  - intros inner code Hin Hcode.
    specialize (Hexc (Some code)). rewrite Hin in Hexc. simpl in Hexc.
    specialize (Hexc Hcode). split.
    + intros Hre. rewrite Hcall, Hexc.
      by rewrite (proj2 (retryable_status_spec _) Hre).
    + intros Hre. apply retry_loop_return. rewrite Hcall, Hexc.
      destruct (retryable_status code) eqn:Hr; [|done].
      apply retryable_status_spec in Hr. contradiction.
  - intros Hnone. apply retry_loop_return. rewrite Hcall.
    rewrite (Hexc None); [done|].
    destruct Hnone as [-> | (inner & -> & Hin)]; [done | exact Hin].
Qed.

Lemma schedule_of_app (evs1 evs2 : list (event D X)) :
  schedule_of (evs1 ++ evs2) = schedule_of evs1 ++ schedule_of evs2.
Proof. apply omap_app. Qed.

Lemma schedule_of_upload (xs : list X) :
  schedule_of (D:=D) (EvOp <$> xs) = [].
Proof. induction xs as [|x xs IH]; [done | exact IH]. Qed.

Lemma py_range_cons lo hi : lo < hi → py_range lo hi = lo :: py_range (lo + 1) hi.
Proof.
  intros Hlt. unfold py_range. rewrite seqZ_cons by lia.
  f_equal. f_equal; lia.
Qed.

(** With at least one attempt allowed the function is the loop entered
    at attempt 1. *)
Lemma upload_with_retry_starts upload_fn fp retries delay :
  1 ≤ retries →
  upload_with_retry upload_fn fp retries delay
  = retry_loop upload_fn fp retries delay
      (1 :: py_range (1 + 1) (retries + 1)) "unknown error".
Proof. intros Hr. unfold upload_with_retry. by rewrite py_range_cons by lia. Qed.

Lemma py_range_nil lo hi : hi ≤ lo → py_range lo hi = [].
Proof. intros Hle. unfold py_range. apply seqZ_nil. lia. Qed.

Lemma py_range_length lo hi : length (py_range lo hi) = Z.to_nat (hi - lo).
Proof. unfold py_range. apply length_seqZ. Qed.

(** One pass through the [try] statement calls [upload_fn] exactly once
    and never raises. *)
Lemma attempt_once_events upload_fn fp w :
  ∃ r xs, attempt_once upload_fn fp w
          = (r, {| env := env (attempt_once upload_fn fp w).2;
                   trace := trace w ++ EvCall fp :: (EvOp <$> xs) |})
          ∧ ∀ e, r ≠ Raised e.
Proof.
  unfold attempt_once, try_except, bind, emit, lift, ret. simpl.
  destruct (upload_fn fp _) as [[response|exc|code] u]; simpl;
    eexists _, (trace u); rewrite <- app_assoc; simpl; split; done.
Qed.

Lemma backoff_cases retries delay k last_err w :
  let wait := mul_attempt delay k in
  let notice := EvPrint (retry_notice retries k last_err wait) in
  (k < retries ∧ sleep_ok wait = true
     ∧ backoff retries delay k last_err w
       = (Returned tt, {| env := env w;
                          trace := trace w ++ [notice; EvSleep wait] |}))
  ∨ (k < retries ∧ sleep_ok wait = false
     ∧ ∃ e, backoff retries delay k last_err w
       = (Raised e, {| env := env w; trace := trace w ++ [notice] |}))
  ∨ (retries ≤ k ∧ backoff retries delay k last_err w = (Returned tt, w)).
Proof.
  intros wait notice. unfold backoff. case_bool_decide as Hk.
  - fold wait. unfold bind, print, time_sleep, emit, raise. simpl.
    destruct (sleep_ok wait) eqn:Hs; [left | right; left].
    + split; [done|]. split; [done|]. simpl. by rewrite <- app_assoc.
    + split; [done|]. split; [done|]. by eexists.
  - right; right. split; [lia | done].
Qed.

Lemma schedule_of_call fp xs (evs : list (event D X)) :
  schedule_of (EvCall fp :: ((EvOp <$> xs) ++ evs))
  = Attempt fp :: schedule_of evs.
Proof.
  change (EvCall fp :: ((EvOp <$> xs) ++ evs))
    with ([EvCall (D:=D) fp] ++ ((EvOp <$> xs) ++ evs)).
  by rewrite !schedule_of_app, schedule_of_upload.
Qed.

(** Whatever the upload operation does, the attempts and waits of the
    loop form a prefix of the full schedule. *)
Lemma retry_loop_schedule upload_fn fp retries delay attempts last_err w :
  ∃ evs,
    trace (retry_loop upload_fn fp retries delay attempts last_err w).2
    = trace w ++ evs
    ∧ schedule_of evs `prefix_of` full_schedule fp retries delay attempts.
Proof.
  revert last_err w. induction attempts as [|k rest IH]; intros last_err w.
  - exists []. simpl. rewrite app_nil_r. done.
  - simpl. unfold bind at 1.
    destruct (attempt_once_events upload_fn fp w) as (r & xs & Hat & Hnr).
    rewrite Hat. set (w1 := {| env := _; trace := _ |}).
    assert (Hstop : schedule_of (EvCall fp :: ((EvOp <$> xs) ++ []))
              `prefix_of` full_schedule fp retries delay (k :: rest)).
    { rewrite schedule_of_call. simpl. by apply prefix_cons, prefix_nil. }
    rewrite app_nil_r in Hstop.
    destruct r as [[response err|last_err']|e|code]; simpl.
    + eexists; split; [reflexivity | exact Hstop].
    + unfold bind at 1.
      destruct (backoff_cases retries delay k last_err' w1)
        as [(Hk & Hs & ->) | [(Hk & Hs & e & ->) | (Hk & ->)]].
      * set (w2 := {| env := _; trace := _ |}).
        destruct (IH last_err' w2) as (evs & -> & Hpre).
        eexists. subst w2 w1. simpl. rewrite <- !app_assoc.
        split; [reflexivity|].
        rewrite <- app_comm_cons, schedule_of_call, ?schedule_of_app. simpl.
        rewrite bool_decide_eq_true_2 by done. simpl.
        by apply prefix_cons, prefix_cons.
      * eexists. subst w1. simpl. rewrite <- app_assoc.
        split; [reflexivity|].
        rewrite <- app_comm_cons, schedule_of_call, ?schedule_of_app. simpl.
        by apply prefix_cons, prefix_nil.
      * destruct (IH last_err' w1) as (evs & -> & Hpre).
        eexists. subst w1. simpl. rewrite <- app_assoc.
        split; [reflexivity|].
        rewrite <- app_comm_cons, schedule_of_call, ?schedule_of_app. simpl.
        rewrite bool_decide_eq_false_2 by lia. simpl.
        by apply prefix_cons.
    + by destruct (Hnr e).
    + eexists; split; [reflexivity | exact Hstop].
Qed.

Lemma attempts_in_full_schedule fp retries delay attempts :
  attempts_in (full_schedule fp retries delay attempts) = length attempts.
Proof.
  unfold attempts_in, full_schedule.
  induction attempts as [|k rest IH]; [done|].
  cbn [mbind list_bind]. rewrite omap_app, length_app, IH.
  case_bool_decide; reflexivity.
Qed.

Lemma attempts_in_prefix (sch1 sch2 : list (step (D:=D))) :
  sch1 `prefix_of` sch2 → (attempts_in sch1 ≤ attempts_in sch2)%nat.
Proof.
  intros [tl ->]. unfold attempts_in. rewrite omap_app, length_app. lia.
Qed.

(** One turn of the loop at attempt counter [k], the attempt having
    been classified retryable. *)
Lemma retry_loop_retryable upload_fn fp retries delay k last_err0 last_err w w1 :
  attempt_once upload_fn fp w = (Returned (Retryable last_err), w1) →
  (k < retries → sleep_ok (mul_attempt delay k) = true →
     retry_loop upload_fn fp retries delay (py_range k (retries + 1)) last_err0 w
     = retry_loop upload_fn fp retries delay
         (py_range (k + 1) (retries + 1)) last_err
         {| env := env w1;
            trace := trace w1
              ++ [EvPrint (retry_notice retries k last_err (mul_attempt delay k));
                  EvSleep (mul_attempt delay k)] |})
  ∧ (k = retries →
     retry_loop upload_fn fp retries delay (py_range k (retries + 1)) last_err0 w
     = (Returned (None, Some (last_err +:+ " after " +:+ pretty retries
                              +:+ " attempts")), w1)).
Proof.
  intros Hat. split.
  - intros Hk Hs. rewrite (py_range_cons k) by lia. simpl.
    unfold bind at 1. rewrite Hat. unfold bind at 1.
    destruct (backoff_cases retries delay k last_err w1)
      as [(_ & _ & ->) | [(_ & Hs' & _) | (Hk' & _)]];
      [reflexivity | congruence | lia].
  - intros ->. rewrite (py_range_cons retries) by lia.
    rewrite (py_range_nil (retries + 1)) by lia. simpl.
    unfold bind at 1. rewrite Hat. unfold bind at 1.
    destruct (backoff_cases retries delay retries last_err w1)
      as [(Hk & _) | [(Hk & _) | (_ & ->)]]; [lia | lia | reflexivity].
Qed.
End RetryProperties.

(** C2. On a retryable classification at attempt counter [k]: if
    [k < retries] the loop prints its notice, sleeps exactly
    [retry_delay * k] and goes on with attempt [k + 1]; at [k = retries]
    it returns no response and the error
    "<last error> after <retries> attempts".  Whatever the upload
    operation does, the attempts and waits of a run are a prefix of
    attempt, wait [retry_delay * 1], attempt, wait [retry_delay * 2], ...,
    so at most [retries] attempts are made; with [retries = 3] and
    [retry_delay = 5] that schedule is attempt, 5, attempt, 10, attempt. *)
Theorem upload_with_retry_linear_backoff :
  (∀ D `(Seconds D) X E (upload_fn : string → M X E Response) fp retries
     (delay : D) k last_err0 last_err w w1,
     attempt_once upload_fn fp w = (Returned (Retryable last_err), w1) →
     (k < retries → sleep_ok (mul_attempt delay k) = true →
        retry_loop upload_fn fp retries delay (py_range k (retries + 1)) last_err0 w
        = retry_loop upload_fn fp retries delay
            (py_range (k + 1) (retries + 1)) last_err
            {| env := env w1;
               trace := trace w1
                 ++ [EvPrint (retry_notice retries k last_err (mul_attempt delay k));
                     EvSleep (mul_attempt delay k)] |})
     ∧ (k = retries →
        retry_loop upload_fn fp retries delay (py_range k (retries + 1)) last_err0 w
        = (Returned (None, Some (last_err +:+ " after " +:+ pretty retries
                                 +:+ " attempts")), w1)))
  ∧ (∀ D `(Seconds D) X E (upload_fn : string → M X E Response) fp retries
       (delay : D) w,
       ∃ evs,
         trace (upload_with_retry upload_fn fp retries delay w).2 = trace w ++ evs
         ∧ schedule_of evs
           `prefix_of` full_schedule fp retries delay (py_range 1 (retries + 1))
         ∧ (0 ≤ retries → Z.of_nat (attempts_in (schedule_of evs)) ≤ retries))
  ∧ (∀ fp, full_schedule fp 3 5 (py_range 1 (3 + 1))
           = [Attempt fp; Wait 5; Attempt fp; Wait 10; Attempt fp]).
Proof.
  split; [|split].
  - intros. by apply retry_loop_retryable.
  - intros D HD X E upload_fn fp retries delay w.
    destruct (retry_loop_schedule upload_fn fp retries delay
                (py_range 1 (retries + 1)) "unknown error" w)
      as (evs & Htr & Hpre).
    exists evs. split; [exact Htr|]. split; [exact Hpre|].
    intros Hr. apply attempts_in_prefix in Hpre.
    rewrite attempts_in_full_schedule, py_range_length in Hpre. lia.
  - intros fp. reflexivity.
Qed.

(** *** posixpath facts *)

Lemma split_path_no_sep (s : string) :
  has_sep s = false → split_path s = ("", s).
Proof.
  induction s as [|c s IH]; [done|]. simpl.
  intros [Hc Hs]%orb_false_iff. rewrite (IH Hs), Hc. done.
Qed.

Lemma split_path_head_sep (a f : string) :
  has_sep f = false → split_path (a +:+ "/" +:+ f) = (a +:+ "/", f).
Proof.
  intros Hf. induction a as [|c a IH].
  - change ("" +:+ "/" +:+ f) with (String sep f).
    cbn [split_path]. rewrite (split_path_no_sep f Hf). done.
  - change (String c a +:+ "/" +:+ f) with (String c (a +:+ "/" +:+ f)).
    cbn [split_path]. rewrite IH.
    destruct (is_sep c); [done|].
    rewrite bool_decide_eq_false_2; [done|]. by destruct a.
Qed.

Lemma endswith_sep_inv (a : string) :
  endswith_sep a = true → ∃ a', a = a' +:+ "/".
Proof.
  induction a as [|c a IH]; [done|]. destruct a as [|d a].
  - simpl. unfold is_sep. intros ->%bool_decide_eq_true. by exists "".
  - intros Hends. destruct (IH Hends) as [a' ->]. by exists (String c a').
Qed.

Lemma startswith_no_sep (f : string) : has_sep f = false → startswith_sep f = false.
Proof. destruct f as [|c f]; [done|]. simpl. by intros [? ?]%orb_false_iff. Qed.

(** The base name of a joined path is the entry name that was joined. *)
Lemma basename_path_join (root fname : string) :
  has_sep fname = false → basename (path_join root fname) = fname.
Proof.
  intros Hf. unfold basename, path_join.
  rewrite (startswith_no_sep _ Hf).
  case_bool_decide as Hroot; simpl.
  - subst root. change ("" +:+ fname) with fname.
    by rewrite (split_path_no_sep _ Hf).
  - destruct (endswith_sep root) eqn:Hends.
    + destruct (endswith_sep_inv _ Hends) as [a ->].
      replace ((a +:+ "/") +:+ fname) with (a +:+ "/" +:+ fname).
      * by rewrite (split_path_head_sep _ _ Hf).
      * clear. induction a as [|c a IH]; [done|].
        change (String c a +:+ "/" +:+ fname)
          with (String c (a +:+ "/" +:+ fname)). by rewrite IH.
    + by rewrite (split_path_head_sep _ _ Hf).
Qed.

(** *** The collector *)

Lemma filter_cons_bool {A} (f : A → bool) (x : A) (l : list A) :
  filter (λ y, f y) (x :: l)
  = if f x then x :: filter (λ y, f y) l else filter (λ y, f y) l.
Proof.
  rewrite filter_cons. destruct (decide _) as [Hfx|Hfx], (f x); try done.
Qed.

Section CollectorProperties.
Context {D X E : Type}.
Variable fnmatch : string → string → bool.
Implicit Types (fs : FileSystem) (excludes : list string)
  (pairs : list (string * string)) (w : world (event D X) E).

Lemma single_file_loop_spec name excludes :
  single_file_loop fnmatch name excludes
  = if excluded fnmatch excludes name then Some ([], 1) else None.
Proof.
  induction excludes as [|pattern rest IH]; [done|]. simpl.
  destruct (fnmatch name pattern); [done | exact IH].
Qed.

Lemma visit_loop fs excludes pairs files skipped :
  foldl (λ acc pr, visit fnmatch fs excludes pr.1 pr.2 acc) (files, skipped) pairs
  = (files ++ kept fnmatch fs excludes pairs, skipped + skipped_count fnmatch fs excludes pairs).
Proof.
  revert files skipped. unfold kept, skipped_count, regular.
  induction pairs as [|[root fname] pairs IH]; intros files skipped.
  - simpl. rewrite app_nil_r. f_equal. lia.
  - cbn [foldl]. rewrite !filter_cons_bool. unfold visit at 2.
    cbn [fst snd].
    destruct (isfile fs (path_join root fname)) eqn:Hreg; cbn [negb andb].
    + destruct (excluded fnmatch excludes fname) eqn:Hex; cbn [negb].
      * rewrite IH. f_equal. cbn [length]. lia.
      * rewrite IH. rewrite fmap_cons, <- app_assoc. done.
    + rewrite IH. done.
Qed.

Lemma scan_walk_visited fs excludes triples acc :
  scan_walk fnmatch fs excludes triples acc
  = foldl (λ acc pr, visit fnmatch fs excludes pr.1 pr.2 acc) acc (visited triples).
Proof.
  revert acc. unfold scan_walk, visited.
  induction triples as [|[[root dirs] names] triples IH]; intros acc; [done|].
  cbn [foldl mbind list_bind]. rewrite foldl_app, IH. f_equal.
  clear. revert acc. induction names as [|fname names IH]; intros acc; [done|].
  cbn [foldl fmap list_fmap]. apply IH.
Qed.

Lemma scan_listdir_visited fs excludes target names acc :
  scan_listdir fnmatch fs excludes target names acc
  = foldl (λ acc pr, visit fnmatch fs excludes pr.1 pr.2 acc) acc
      (pair target <$> names).
Proof.
  revert acc. unfold scan_listdir.
  induction names as [|fname names IH]; intros acc; [done|].
  cbn [foldl fmap list_fmap]. apply IH.
Qed.

Lemma collect_files_directory fs target recursive excludes w :
  isfile fs target = false → isdir fs target = true →
  collect_files fnmatch fs target recursive excludes w
  = (Returned (py_sort (kept fnmatch fs excludes (entries fs target recursive)),
               skipped_count fnmatch fs excludes (entries fs target recursive)), w).
Proof.
  intros Hfile Hdir. unfold collect_files, entries. rewrite Hfile, Hdir.
  cbn [negb]. destruct recursive.
  - rewrite scan_walk_visited, visit_loop. reflexivity.
  - rewrite scan_listdir_visited, visit_loop. reflexivity.
Qed.

Lemma collect_files_single fs target recursive excludes w :
  isfile fs target = true →
  collect_files fnmatch fs target recursive excludes w
  = (Returned (if excluded fnmatch excludes (basename target)
               then ([], 1) else ([abspath fs target], 0)), w).
Proof.
  intros Hfile. unfold collect_files. rewrite Hfile, single_file_loop_spec.
  by destruct (excluded _ _ _).
Qed.

Lemma py_sort_sorted (files : list string) : Sorted String.le (py_sort files).
Proof. apply (Sorted_merge_sort String.le). Qed.

Lemma py_sort_permutation (files : list string) : py_sort files ≡ₚ files.
Proof. apply merge_sort_Permutation. Qed.

(** [py_sort] stands for any sort of [str]: the sorted arrangement of a
    list is unique. *)
Lemma py_sort_unique (files sorted : list string) :
  Sorted String.le sorted → sorted ≡ₚ files → sorted = py_sort files.
Proof.
  intros Hsorted Hperm.
  apply (Sorted_unique String.le); [done | apply py_sort_sorted |].
  by rewrite py_sort_permutation.
Qed.

(** Sorting forgets the order in which the files were found. *)
Lemma py_sort_order_irrelevant (files1 files2 : list string) :
  files1 ≡ₚ files2 → py_sort files1 = py_sort files2.
Proof.
  intros Hperm. apply (Sorted_unique String.le); try apply py_sort_sorted.
  by rewrite !py_sort_permutation.
Qed.

Lemma filter_bool_agree {A} (f g : A → bool) (l : list A) :
  Forall (λ x, f x = g x) l → filter (λ x, f x) l = filter (λ x, g x) l.
Proof.
  induction 1 as [|x l Hx _ IH]; [done|].
  by rewrite !filter_cons_bool, Hx, IH.
Qed.

(** C4. The file list that [collect_files] returns is sorted ascending
    (by the order of [str] on the absolute paths), and it does not
    depend on the order in which the operating system enumerates the
    directory entries: over the same tree and with the same arguments a
    second collection returns the same ordered list and the same
    skipped count. *)
Theorem collect_files_sorted_deterministic fs target recursive excludes w :
  (∀ files skipped w',
     collect_files fnmatch fs target recursive excludes w
     = (Returned (files, skipped), w') →
     Sorted String.le files)
  ∧ (∀ listdir' walk',
       listdir' target ≡ₚ listdir fs target →
       visited (walk' target) ≡ₚ visited (walk fs target) →
       collect_files fnmatch (with_listing fs listdir' walk') target
         recursive excludes w
       = collect_files fnmatch fs target recursive excludes w).
Proof.
  split.
  - intros files skipped w' Hrun.
    destruct (isfile fs target) eqn:Hfile.
    + rewrite collect_files_single in Hrun by done.
      destruct (excluded _ _ _); simplify_eq; repeat constructor.
    + destruct (isdir fs target) eqn:Hdir.
      * rewrite collect_files_directory in Hrun by done.
        simplify_eq. apply py_sort_sorted.
      * unfold collect_files in Hrun. rewrite Hfile, Hdir in Hrun.
        discriminate Hrun.
  - intros listdir' walk' Hlist Hwalk.
    destruct (isfile fs target) eqn:Hfile.
    + by rewrite !collect_files_single.
    + destruct (isdir fs target) eqn:Hdir.
      * rewrite !collect_files_directory by done.
        assert (Hperm : entries (with_listing fs listdir' walk') target recursive
                        ≡ₚ entries fs target recursive).
        { unfold entries. destruct recursive; simpl; [done|].
          by apply fmap_Permutation. }
        unfold kept, skipped_count, regular. simpl.
        do 3 f_equal.
        -- apply py_sort_order_irrelevant.
           by apply fmap_Permutation, filter_Permutation.
        -- by rewrite Hperm.
      * unfold collect_files. simpl. by rewrite Hfile, Hdir.
Qed.

(** C5. In the single-file mode the file is left out (and counted as
    skipped) exactly when its base name matches one of the exclude
    patterns.  In both directory modes, over entries that are plain
    names, the returned files are the regular files visited whose base
    name matches no pattern, and the skipped count is the number of
    regular files visited whose base name matches one.  The decision
    looks at the entry name alone: a regular file whose name matches no
    pattern is collected whatever its directory is called. *)
Theorem collect_files_excludes_by_base_name fs target recursive excludes w :
  (isfile fs target = true →
     collect_files fnmatch fs target recursive excludes w
     = (Returned (if excluded fnmatch excludes (basename target)
                  then ([], 1) else ([abspath fs target], 0)), w))
  ∧ (isfile fs target = false → isdir fs target = true →
     Forall (λ pr, has_sep pr.2 = false) (entries fs target recursive) →
     ∃ files skipped,
       collect_files fnmatch fs target recursive excludes w
       = (Returned (files, skipped), w)
       ∧ files ≡ₚ (λ pr, abspath fs (path_join pr.1 pr.2))
             <$> filter (λ pr, regular fs pr
                  && negb (excluded fnmatch excludes
                             (basename (path_join pr.1 pr.2))))
                  (entries fs target recursive)
       ∧ skipped = Z.of_nat (length
             (filter (λ pr, regular fs pr
                  && excluded fnmatch excludes
                       (basename (path_join pr.1 pr.2)))
                (entries fs target recursive))))
  ∧ (∀ root fname files skipped,
       isfile fs (path_join root fname) = true →
       excluded fnmatch excludes fname = false →
       visit fnmatch fs excludes root fname (files, skipped)
       = (files ++ [abspath fs (path_join root fname)], skipped)).
Proof.
  split; [|split].
  - apply collect_files_single.
  - intros Hfile Hdir Hnames.
    eexists _, _. split; [by apply collect_files_directory|].
    assert (Hbase : ∀ neg : bool → bool,
      Forall (λ pr, regular fs pr && neg (excluded fnmatch excludes pr.2)
                = regular fs pr
                  && neg (excluded fnmatch excludes
                            (basename (path_join pr.1 pr.2))))
             (entries fs target recursive)).
    { intros neg. eapply Forall_impl; [exact Hnames|].
      intros [root fname] Hsep. simpl in *. by rewrite basename_path_join. }
    unfold kept, skipped_count. split.
    + rewrite py_sort_permutation.
      by rewrite (filter_bool_agree _ _ _ (Hbase negb)).
    + specialize (Hbase id). unfold id in Hbase.
      by rewrite (filter_bool_agree _ _ _ Hbase).
  - intros root fname files skipped Hreg Hex.
    unfold visit. by rewrite Hreg, Hex.
Qed.
End CollectorProperties.

(** *** The resolver *)

Section ResolverProperties.
Context {E : Type} `{Outside E}.
Implicit Types (m : Method) (u : world io_event E) (fp : string).

Lemma invoke_entered m args u : invoke m args u = entered m args u.
Proof.
  unfold invoke, entered, bind, emit, outside. simpl.
  by destruct (sdk_call m args (env u)) as [[?|?|?] ?].
Qed.

(** C7, as amended. [_make_path_caller] inspects the signature once,
    while the closure is built.  When the signature is there, the closure
    keeps the parameter name: with a first parameter [p] every later call
    passes the path under the keyword [p] without looking at the
    signature again, and with no parameter the closure calls the method
    positionally with the path as its only argument.  When no signature
    can be had, the [ValueError] of [inspect.signature] leaves the builder
    and no closure is built. *)
Theorem make_path_caller_binds_parameter_name m u :
  (∀ params, signature m = Some params →
     ∃ c,
       _make_path_caller m u
       = (Returned c, {| env := env u; trace := trace u ++ [IoSignature m] |})
       ∧ (∀ p, first_parameter params = Some p → p ≠ "" →
            c = PathByKeyword m p
            ∧ ∀ fp u',
                call_upload c fp u' = entered m (Keyword p (ArgPath fp)) u')
       ∧ (params = [] →
            c = PathPositional m
            ∧ ∀ fp u',
                call_upload c fp u' = entered m (Positional (ArgPath fp)) u'))
  ∧ (signature m = None →
       _make_path_caller m u
       = (Raised no_signature,
          {| env := env u; trace := trace u ++ [IoSignature m] |})).
Proof.
  unfold _make_path_caller, inspect_signature, bind, emit. split.
  - intros params ->. unfold py_signature, ret. simpl.
    destruct (first_parameter params) as [p|] eqn:Hp.
    + destruct (truthy (Some p)) eqn:Htruthy.
      * eexists. split; [reflexivity|]. split.
        -- intros p' [= <-] _. split; [done|]. intros. apply invoke_entered.
        -- intros Hnil. by rewrite Hnil in Hp.
      * eexists. split; [reflexivity|]. split.
        -- intros p' [= <-] Hne. simpl in Htruthy.
           by rewrite bool_decide_eq_false_2 in Htruthy.
        -- intros _. split; [done|]. intros. apply invoke_entered.
    + eexists. split; [reflexivity|]. split.
      * intros p' [=].
      * intros _. split; [done|]. intros. apply invoke_entered.
  - intros ->. reflexivity.
Qed.

Lemma make_handle_caller_built m u params :
  signature m = Some params →
  _make_handle_caller m u
  = (Returned (HandleUpload m (first_parameter params)),
     {| env := env u; trace := trace u ++ [IoSignature m] |}).
Proof.
  intros Hsig. unfold _make_handle_caller, inspect_signature, bind, emit.
  by rewrite Hsig.
Qed.

(** C8. Every call of the closure built by [_make_handle_caller] opens
    the file in mode "rb"; once the file is open, the entry point is
    entered with the open handle and, however that ends (a response of
    any status, an exception, an exit), the handle is closed exactly
    once, after the entry point and before the outcome is passed on.
    If the file cannot be opened the error is passed on and there is
    no handle. *)
Theorem handle_caller_closes_handle m u fp params :
  signature m = Some params →
  let p := first_parameter params in
  ∃ c,
    _make_handle_caller m u
    = (Returned c, {| env := env u; trace := trace u ++ [IoSignature m] |})
    ∧ (∀ u' fh e1 r e2,
         open_file fp "rb" (env u') = (Returned fh, e1) →
         sdk_call m (handle_args p fh) e1 = (r, e2) →
         call_upload c fp u'
         = (r, {| env := close_file fh e2;
                  trace := trace u' ++ [IoOpen fp "rb" fh;
                                        IoInvoke m (handle_args p fh);
                                        IoClose fh] |}))
    ∧ (∀ u' e e1,
         open_file fp "rb" (env u') = (Raised e, e1) →
         call_upload c fp u' = (Raised e, {| env := e1; trace := trace u' |})).
Proof.
  intros Hsig p. exists (HandleUpload m p).
  split; [by apply make_handle_caller_built|]. split.
  - intros u' fh e1 r e2 Hopen Hcall.
    assert (Hbody : ∀ v,
      match p with
      | Some name => if truthy p then invoke m (Keyword name (ArgHandle fh))
                     else invoke m (Positional (ArgHandle fh))
      | None => invoke m (Positional (ArgHandle fh))
      end v = entered m (handle_args p fh) v).
    { intros v. rewrite <- invoke_entered. unfold handle_args.
      destruct p; [|done]. by destruct (truthy _). }
    cbn [call_upload]. unfold bind at 1, py_open, bind at 1, outside at 1.
    rewrite Hopen. unfold bind at 1, emit at 1, ret at 1. cbn [env trace].
    unfold try_finally. rewrite Hbody. unfold entered. cbn [env trace].
    rewrite Hcall. unfold py_close, bind, emit, outside. cbn [env trace].
    by rewrite <- !app_assoc.
  - intros u' e e1 Hopen.
    cbn [call_upload]. unfold bind at 1, py_open, bind at 1, outside at 1.
    by rewrite Hopen.
Qed.
End ResolverProperties.

(** *** The run *)

Section MainProperties.
Context {D : Type} `{Seconds D} {E : Type} `{Outside E}.
Implicit Types (w : world (event D io_event) E)
  (fs : FileSystem) (args : Args D).

Lemma print_summary_run {X} uploaded failed skipped total
    (w : world (event D X) E) :
  print_summary uploaded failed skipped total w
  = (Returned tt, {| env := env w;
                     trace := trace w
                       ++ summary_events uploaded failed skipped total |}).
Proof.
  unfold print_summary, summary_events, bind, print, emit. simpl.
  by rewrite <- !app_assoc.
Qed.

Lemma announce_returns fs args files skipped w :
  ∃ w', announce fs args files skipped w = (Returned tt, w').
Proof.
  unfold announce, print_header, bind, print, emit, ret. simpl.
  destruct (isfile fs (target_path args)); simpl;
    case_bool_decide; simpl; by eexists.
Qed.

(** C6. The resolver takes the first of [upload_sample_from_path],
    [submit_file_from_path], [upload_sample_from_file],
    [submit_file_from_handle] that the SDK object has, both path-based
    names before both handle-based ones, and builds the matching
    closure.  With none of the four it prints a diagnostic that names
    all four and exits with status 1; [main] then ends there, having
    called no upload operation. *)
Theorem resolve_upload_fn_priority (a1000 : Client) w :
  (∀ m, a1000 !! "upload_sample_from_path" = Some m →
     resolve_upload_fn a1000 w = lift EvOp (_make_path_caller m) w)
  ∧ (∀ m, a1000 !! "upload_sample_from_path" = None →
       a1000 !! "submit_file_from_path" = Some m →
       resolve_upload_fn a1000 w = lift EvOp (_make_path_caller m) w)
  ∧ (∀ m, a1000 !! "upload_sample_from_path" = None →
       a1000 !! "submit_file_from_path" = None →
       a1000 !! "upload_sample_from_file" = Some m →
       resolve_upload_fn a1000 w = lift EvOp (_make_handle_caller m) w)
  ∧ (∀ m, a1000 !! "upload_sample_from_path" = None →
       a1000 !! "submit_file_from_path" = None →
       a1000 !! "upload_sample_from_file" = None →
       a1000 !! "submit_file_from_handle" = Some m →
       resolve_upload_fn a1000 w = lift EvOp (_make_handle_caller m) w)
  ∧ (a1000 !! "upload_sample_from_path" = None →
     a1000 !! "submit_file_from_path" = None →
     a1000 !! "upload_sample_from_file" = None →
     a1000 !! "submit_file_from_handle" = None →
     resolve_upload_fn a1000 w
     = (SysExit 1, {| env := env w;
                      trace := trace w ++ (EvStderr <$> missing_method_lines) |})
     ∧ ∀ fnmatch fs args A1000 init_params w0,
         init_signature A1000 = Some init_params →
         construct A1000 (init_kwargs args init_params) = a1000 →
         main fnmatch fs args (Some A1000) w0
         = (SysExit 1,
            {| env := env w0;
               trace := trace w0 ++ EvPatchTimeout (timeout args)
                          :: (EvStderr <$> missing_method_lines) |}))
  ∧ Forall (λ name, occurs name (str_join " " missing_method_lines) = true)
      candidate_names.
Proof.
  unfold resolve_upload_fn. cbn [probe].
  split; [|split; [|split; [|split; [|split]]]].
  - by intros m ->.
  - by intros m -> ->.
  - by intros m -> -> ->.
  - by intros m -> -> -> ->.
  - intros H1 H2 H3 H4. rewrite H1, H2, H3, H4. split.
    + unfold bind, emit, sys_exit. simpl. by rewrite <- !app_assoc.
    + intros fnmatch fs args A1000 init_params w0 Hinit Hobj.
      unfold main, patch_timeout, resolve_upload_fn. cbn [probe].
      rewrite Hinit. unfold py_signature, bind at 1, emit at 1.
      unfold bind at 1, ret at 1. rewrite Hobj, H1, H2, H3, H4.
      unfold bind, emit, sys_exit. simpl. by rewrite <- !app_assoc.
  - repeat constructor.
Qed.

(** The counters only grow, and a loop that runs to its end has
    counted every file once. *)
Lemma upload_loop_counts fs args upload_fn base_path n_files width
    idx todo uploaded failed w uploaded' failed' w' :
  upload_loop fs args upload_fn base_path n_files width idx todo
    uploaded failed w = (Returned (uploaded', failed'), w') →
  uploaded ≤ uploaded' ∧ failed ≤ failed'
  ∧ uploaded' + failed' = uploaded + failed + Z.of_nat (length todo).
Proof.
  revert idx uploaded failed w.
  induction todo as [|fpath rest IH]; intros idx uploaded failed w.
  - simpl. unfold ret. intros [= <- <- <-]. lia.
  - cbn [upload_loop length]. unfold bind at 1.
    destruct (upload_with_retry _ _ _ _ w) as [[[response err]|e|code] w1];
      [|discriminate..].
    assert (Hstep : ∀ up fl w2,
      (((if bool_decide (idx < n_files) then time_sleep (sleep args)
         else ret tt) ;;;
        upload_loop fs args upload_fn base_path n_files width (idx + 1)
          rest up fl) w2 = (Returned (uploaded', failed'), w')) →
      up ≤ uploaded' ∧ fl ≤ failed'
      ∧ uploaded' + failed' = up + fl + Z.of_nat (length rest)).
    { intros up fl w2. unfold bind at 1.
      destruct (if bool_decide (idx < n_files) then _ else _)
        as [[[]|e|code] w3]; [|discriminate..].
      apply IH. }
    destruct err as [err|].
    + unfold bind at 1, bind at 1, print, emit, ret. cbn [fst snd].
      intros Hrun%Hstep. lia.
    + destruct response as [resp|].
      * unfold bind at 1, bind at 1, print, emit, ret. cbn [fst snd].
        intros Hrun%Hstep. lia.
      * unfold bind at 1, raise. discriminate.
Qed.

(** C9. A run that gets as far as the summary exits with status 0
    exactly when nothing failed: with no file collected [main] prints
    the summary with zero failures and returns (status 0); when the
    upload loop has run to its end with [failed] failures, [main]
    prints the summary and then returns if [failed = 0] and exits with
    status 1 if [failed > 0]. *)
Theorem main_exit_status fnmatch fs args A1000 init_params w upload_fn w1
    files skipped w2 :
  init_signature A1000 = Some init_params →
  resolve_upload_fn (construct A1000 (init_kwargs args init_params))
    {| env := env w; trace := trace w ++ [EvPatchTimeout (timeout args)] |}
  = (Returned upload_fn, w1) →
  collect_files fnmatch fs (target_path args) (recursive args)
    (exclude args) w1 = (Returned (files, skipped), w2) →
  let n_files := Z.of_nat (length files) in
  let total_seen := n_files + skipped in
  let w3 := (announce fs args files skipped w2).2 in
  let run := main fnmatch fs args (Some A1000) w in
  (files = [] →
     run.1 = Returned tt ∧ exit_status run.1 = 0
     ∧ trace run.2 = trace w3 ++ summary_events 0 0 skipped total_seen)
  ∧ (∀ uploaded failed w4,
       files ≠ [] →
       upload_loop fs args upload_fn
         (if isdir fs (target_path args) then target_path args
          else dirname (target_path args))
         n_files (py_len (pretty n_files)) 1 files 0 0 w3
       = (Returned (uploaded, failed), w4) →
       (exit_status run.1 = 0 ↔ failed = 0)
       ∧ (0 < failed → run.1 = SysExit 1)
       ∧ trace run.2
         = trace w4 ++ summary_events uploaded failed skipped total_seen).
Proof.
  intros Hinit Hresolve Hcollect n_files total_seen w3 run.
  destruct (announce_returns fs args files skipped w2) as [w3' Hann].
  assert (Hw3 : w3 = w3') by (subst w3; by rewrite Hann).
  assert (Hrun : run = match files with
    | [] => print_summary 0 0 skipped total_seen w3
    | _ :: _ =>
        (counts <~ upload_loop fs args upload_fn
           (if isdir fs (target_path args) then target_path args
            else dirname (target_path args))
           n_files (py_len (pretty n_files)) 1 files 0 0 ;;
         let '(uploaded, failed) := counts in
         print_summary uploaded failed skipped total_seen ;;;
         if bool_decide (0 < failed) then sys_exit 1 else ret tt) w3
    end).
  { subst run. unfold main, patch_timeout.
    unfold bind at 1, emit at 1. rewrite Hinit.
    unfold bind at 1, py_signature, ret at 1.
    unfold bind at 1. rewrite Hresolve.
    unfold bind at 1. rewrite Hcollect.
    unfold bind at 1. rewrite Hann, Hw3. by destruct files. }
  split.
  - intros ->. rewrite Hrun, print_summary_run. done.
  - intros uploaded failed w4 Hne Hloop.
    destruct files as [|f files']; [done|].
    assert (Hfinal : run
      = (if bool_decide (0 < failed) then SysExit 1 else Returned tt,
         {| env := env w4;
            trace := trace w4
              ++ summary_events uploaded failed skipped total_seen |})).
    { rewrite Hrun. unfold bind at 1. rewrite Hloop.
      unfold bind at 1. rewrite print_summary_run. by case_bool_decide. }
    rewrite Hfinal. clear Hfinal Hrun.
    apply upload_loop_counts in Hloop as (_ & Hfailed & _).
    case_bool_decide as Hpos; simpl.
    + split; [|done]. split; [done | lia].
    + split; [|split; [lia | done]]. split; [lia | done].
Qed.
End MainProperties.

(* ------------------------------------------------------------------ *)
(** * Worked runs *)

Definition demo_script : list (result Response) :=
  [http 200; http 503; http 503; http 503].

Definition wrapped_503 : PyException :=
  {| exc_type_name := "ApiError"; exc_str := "service unavailable";
     isinstance_Timeout := false; isinstance_ConnectionError := false;
     exc_response := Some {| inner_status_code := Some 503 |} |}.

Definition failing_script : list (result Response) := [Raised wrapped_503].

(** Status 500, retried, succeeds on the second attempt. *)
Example retry_then_success :
  upload_with_retry scripted_upload "sample.bin" 3 5 (start [http 500; http 200])
  = (Returned (Some {| status_code := 200; body := "" |}, None),
     {| env := [];
        trace := [EvCall "sample.bin"; EvOp tt;
                  EvPrint "          Attempt 1/3: HTTP 500, retrying in 5s...";
                  EvSleep 5; EvCall "sample.bin"; EvOp tt] |}).
Proof. vm_compute. reflexivity. Qed.

(** Status 503 on all three attempts: waits 5 and 10, then gives up. *)
Example retries_exhausted :
  let run := upload_with_retry scripted_upload "sample.bin" 3 5
               (start [http 503; http 503; http 503]) in
  run.1 = Returned (None, Some "HTTP 503 after 3 attempts")
  ∧ schedule_of (trace run.2)
    = [Attempt "sample.bin"; Wait 5; Attempt "sample.bin"; Wait 10;
       Attempt "sample.bin"].
Proof. vm_compute. split; reflexivity. Qed.

(** Status 404: one attempt, no wait. *)
Example not_found_is_final :
  let run := upload_with_retry scripted_upload "sample.bin" 3 5
               (start [http 404; http 200]) in
  run.1 = Returned (Some {| status_code := 404; body := "" |}, Some "HTTP 404")
  ∧ schedule_of (trace run.2) = [Attempt "sample.bin"].
Proof. vm_compute. split; reflexivity. Qed.

(** With [retries = 0] nothing is attempted. *)
Example no_attempts_allowed :
  upload_with_retry scripted_upload "sample.bin" 0 5 (start [http 200])
  = (Returned (None, Some "unknown error after 0 attempts"), start [http 200]).
Proof. vm_compute. reflexivity. Qed.

(** Matching is case-sensitive, and a directory called [sub.tmp] does not
    hide [keep.txt] from the recursive collection under [*.tmp]. *)
Example glob_is_case_sensitive :
  posix_fnmatch "c.tmp" "*.tmp" = true ∧ posix_fnmatch "C.TMP" "*.tmp" = false.
Proof. vm_compute. split; reflexivity. Qed.

Example recursive_collection :
  collect_files (D:=Z) (X:=unit) posix_fnmatch demo_fs "root" true ["*.tmp"] (start tt)
  = (Returned (["/work/root/a.txt"; "/work/root/b.exe";
                "/work/root/sub.tmp/keep.txt"], 2), start tt).
Proof. vm_compute. reflexivity. Qed.

(** A method without parameters is called positionally, the path alone. *)
Example bare_method_called_positionally :
  (c <~ _make_path_caller bare_method ;; call_upload c "/work/root/a.txt")
    (start [http 200])
  = (http 200,
     {| env := [];
        trace := [IoSignature bare_method;
                  IoInvoke bare_method
                    (Positional (ArgPath "/work/root/a.txt"))] |}).
Proof. vm_compute. reflexivity. Qed.

(** The handle is closed after a normal return as well. *)
Example handle_closed_after_return :
  call_upload (HandleUpload submit_file_from_handle (Some "file_handle"))
    "/work/root/a.txt" (start [http 200])
  = (http 200,
     {| env := [];
        trace := [IoOpen "/work/root/a.txt" "rb" 3%nat;
                  IoInvoke submit_file_from_handle
                    (Keyword "file_handle" (ArgHandle 3%nat));
                  IoClose 3%nat] |}).
Proof. vm_compute. reflexivity. Qed.

(** The scenario of the specification: [a.txt], [b.exe], [c.tmp] under
    the root, [*.tmp] excluded, no recursion; [a.txt] gets 200 and
    [b.exe] gets 503 three times. *)
Example end_to_end_scenario :
  let run := main posix_fnmatch demo_fs demo_args (Some demo_sdk) (start demo_script) in
  run.1 = SysExit 1
  ∧ schedule_of (trace run.2)
    = [Attempt "/work/root/a.txt"; Wait 2;
       Attempt "/work/root/b.exe"; Wait 5;
       Attempt "/work/root/b.exe"; Wait 10;
       Attempt "/work/root/b.exe"]
  ∧ drop 26 (trace run.2) = summary_events 1 1 1 3.
Proof. vm_compute. repeat split; reflexivity. Qed.

(* ------------------------------------------------------------------ *)
(** * The statements at concrete inputs *)

Lemma upload_with_retry_classifies_status_witness :
  retry_loop scripted_upload "sample.bin" 3 5 [1; 2; 3] "unknown error"
    (start [http 404])
  = (Returned (Some {| status_code := 404; body := "" |}, Some "HTTP 404"),
     {| env := []; trace := [EvCall "sample.bin"; EvOp tt] |}).
Proof.
  pose proof (upload_with_retry_classifies_status (D:=Z)
                scripted_upload "sample.bin" 3 5 1 [2; 3] "unknown error"
                (start [http 404]) {| status_code := 404; body := "" |}
                {| env := []; trace := [tt] |} eq_refl) as (_ & _ & Hterminal).
  apply Hterminal; simpl; lia.
Defined.

Lemma upload_with_retry_redirect_status_terminal_witness :
  retry_loop scripted_upload "sample.bin" 3 5 [1; 2; 3] "unknown error"
    (start [http 302])
  = (Returned (Some {| status_code := 302; body := "" |}, Some "HTTP 302"),
     {| env := []; trace := [EvCall "sample.bin"; EvOp tt] |}).
Proof.
  apply (upload_with_retry_redirect_status_terminal (D:=Z)
           scripted_upload "sample.bin" 3 5 1 [2; 3] "unknown error"
           (start [http 302]) {| status_code := 302; body := "" |}
           {| env := []; trace := [tt] |} eq_refl).
  simpl. lia.
Defined.

Lemma upload_with_retry_classifies_exception_witness :
  attempt_once (D:=Z) scripted_upload "sample.bin" (start [Raised wrapped_503])
  = (Returned (Retryable "HTTP 503 (via ApiError)"),
     {| env := []; trace := [EvCall "sample.bin"; EvOp tt] |}).
Proof.
  pose proof (upload_with_retry_classifies_exception (D:=Z)
                scripted_upload "sample.bin" 3 5 1 [2; 3] "unknown error"
                (start [Raised wrapped_503]) wrapped_503
                {| env := []; trace := [tt] |} eq_refl eq_refl eq_refl)
    as [Hembedded _].
  apply (Hembedded {| inner_status_code := Some 503 |} 503 eq_refl eq_refl).
  right. lia.
Defined.

Lemma upload_with_retry_linear_backoff_witness :
  retry_loop scripted_upload "sample.bin" 3 5 (py_range 1 (3 + 1))
    "unknown error" (start [http 503; http 503; http 503])
  = retry_loop scripted_upload "sample.bin" 3 5 (py_range (1 + 1) (3 + 1))
      "HTTP 503"
      {| env := [http 503; http 503];
         trace := [EvCall "sample.bin"; EvOp tt;
                   EvPrint "          Attempt 1/3: HTTP 503, retrying in 5s...";
                   EvSleep 5] |}.
Proof.
  destruct upload_with_retry_linear_backoff as (Hstep & _ & _).
  rewrite (proj1 (Hstep Z _ unit _ scripted_upload "sample.bin" 3 5 1
                    "unknown error" "HTTP 503"
                    (start [http 503; http 503; http 503])
                    {| env := [http 503; http 503];
                       trace := [EvCall "sample.bin"; EvOp tt] |} eq_refl));
    [vm_compute; reflexivity | lia | reflexivity].
Defined.

Lemma collect_files_sorted_deterministic_witness :
  collect_files (D:=Z) (X:=unit) posix_fnmatch
    (with_listing demo_fs demo_listdir' demo_walk') "root" true ["*.tmp"]
    (start tt)
  = collect_files posix_fnmatch demo_fs "root" true ["*.tmp"] (start tt).
Proof.
  apply (collect_files_sorted_deterministic (D:=Z) (X:=unit) posix_fnmatch
           demo_fs "root" true ["*.tmp"] (start tt));
    apply (bool_decide_unpack _); vm_compute; exact I.
Defined.

Lemma collect_files_excludes_by_base_name_witness :
  ∃ files skipped,
    collect_files (D:=Z) (X:=unit) posix_fnmatch demo_fs "root" false
      ["*.tmp"] (start tt)
    = (Returned (files, skipped), start tt)
    ∧ skipped = 1.
Proof.
  destruct (collect_files_excludes_by_base_name (D:=Z) (X:=unit) posix_fnmatch
              demo_fs "root" false ["*.tmp"] (start tt)) as (_ & Hdir & _).
  destruct Hdir as (files & skipped & Hrun & _ & Hskipped);
    [reflexivity | reflexivity | repeat constructor |].
  exists files, skipped. split; [exact Hrun|].
  rewrite Hskipped. vm_compute. reflexivity.
Defined.

Lemma resolve_upload_fn_priority_witness :
  main posix_fnmatch demo_fs demo_args (Some old_sdk) (start demo_script)
  = (SysExit 1,
     {| env := demo_script;
        trace := EvPatchTimeout 300 :: (EvStderr <$> missing_method_lines) |}).
Proof.
  destruct (resolve_upload_fn_priority (D:=Z) ∅ (start demo_script))
    as (_ & _ & _ & _ & Hnone & _).
  destruct Hnone as [_ Hmain]; [reflexivity..|].
  apply (Hmain posix_fnmatch demo_fs demo_args old_sdk
           ["self"; "host"; "token"; "verify"] (start demo_script));
    reflexivity.
Defined.

Lemma make_path_caller_binds_parameter_name_witness :
  ∃ c, _make_path_caller upload_sample_from_path (start demo_script)
       = (Returned c, {| env := demo_script;
                         trace := [IoSignature upload_sample_from_path] |})
       ∧ c = PathByKeyword upload_sample_from_path "file_path".
Proof.
  destruct (make_path_caller_binds_parameter_name upload_sample_from_path
              (start demo_script)) as [Hsig _].
  destruct (Hsig _ eq_refl) as (c & Hbuilt & Hkeyword & _).
  exists c. split; [exact Hbuilt|].
  apply (Hkeyword "file_path" eq_refl). discriminate.
Defined.

Lemma handle_caller_closes_handle_witness :
  ∃ c, _make_handle_caller submit_file_from_handle (start failing_script)
       = (Returned c, {| env := failing_script;
                         trace := [IoSignature submit_file_from_handle] |})
       ∧ call_upload c "/work/root/a.txt" (start failing_script)
         = (Raised wrapped_503,
            {| env := [];
               trace := [IoOpen "/work/root/a.txt" "rb" 3%nat;
                         IoInvoke submit_file_from_handle
                           (Keyword "file_handle" (ArgHandle 3%nat));
                         IoClose 3%nat] |}).
Proof.
  destruct (handle_caller_closes_handle submit_file_from_handle
              (start failing_script) "/work/root/a.txt" _ eq_refl)
    as (c & Hbuilt & Hopened & _).
  exists c. split; [exact Hbuilt|].
  apply (Hopened (start failing_script) 3%nat failing_script
           (Raised wrapped_503) []); reflexivity.
Defined.

Lemma main_exit_status_witness :
  (main posix_fnmatch demo_fs demo_args (Some demo_sdk) (start demo_script)).1
  = SysExit 1.
Proof.
  edestruct (main_exit_status (D:=Z) posix_fnmatch demo_fs demo_args demo_sdk
               ["self"; "host"; "token"; "verify"; "user_agent"]
               (start demo_script)) as [_ Hloop].
  - reflexivity.
  - lazy. reflexivity.
  - lazy. reflexivity.
  - edestruct Hloop as (_ & Hexit & _).
    + discriminate.
    + lazy. reflexivity.
    + apply Hexit. lia.
Defined.

(** C7, as first stated, fails: for a method that gives no signature the
    parameter name cannot be introspected, and the builder raises instead
    of falling back to a positional call. *)
Lemma make_path_caller_no_signature_raises :
  introspection_unavailable opaque_method
  ∧ _make_path_caller opaque_method (start demo_script)
    = (Raised no_signature,
       {| env := demo_script; trace := [IoSignature opaque_method] |}).
Proof. split; [exact I | reflexivity]. Qed.

(* ------------------------------------------------------------------ *)
(** * Further properties of the retry loop *)

Section RetryFurther.
Context {D : Type} `{Seconds D} {X E : Type}.
Implicit Types (upload_fn : string → M X E Response) (fp : string)
  (retries : Z) (delay : D) (w : world (event D X) E).

(** What one pass through the [try] statement can hand back. *)
Lemma attempt_once_flow upload_fn fp w fl w1 :
  attempt_once upload_fn fp w = (Returned fl, w1) →
  (∃ response, fl = on_response response) ∨ (∃ exc, fl = on_exception exc).
Proof.
  unfold attempt_once, try_except, bind, emit, lift, ret. simpl.
  destruct (upload_fn fp _) as [[response|exc|code] u]; simpl;
    intros [= <- <-]; eauto.
Qed.

Lemma on_response_no_error response resp :
  on_response response = Return resp None →
  resp = Some response ∧ 200 ≤ status_code response < 300.
Proof.
  unfold on_response.
  destruct (bool_decide (200 ≤ status_code response)) eqn:Hlo,
           (bool_decide (status_code response < 300)) eqn:Hhi; simpl;
    destruct (retryable_status (status_code response)); intros [=]; subst.
  all: apply bool_decide_eq_true in Hlo, Hhi; auto.
Qed.

Lemma on_exception_has_error exc resp : on_exception exc ≠ Return resp None.
Proof.
  unfold on_exception.
  destruct (isinstance_Timeout exc), (isinstance_ConnectionError exc); try done.
  destruct (exc_response exc ≫= inner_status_code) as [code|]; [|done].
  by destruct (retryable_status code).
Qed.

Lemma on_exception_no_response exc resp err :
  on_exception exc = Return resp err → resp = None.
Proof.
  unfold on_exception.
  destruct (isinstance_Timeout exc), (isinstance_ConnectionError exc); try done.
  destruct (exc_response exc ≫= inner_status_code) as [code|].
  - destruct (retryable_status code); [done|]. by intros [= <- _].
  - by intros [= <- _].
Qed.

(** X1. An attempt that raises a timeout is retryable with last error
    "timeout"; one that raises a connection error (and no timeout) is
    retryable with last error "connection error: <message>".  An
    exception that is both counts as a timeout. *)
Theorem upload_with_retry_transport_errors_retryable upload_fn fp w exc u :
  upload_fn fp (blank w) = (Raised exc, u) →
  (isinstance_Timeout exc = true →
     attempt_once upload_fn fp w
     = (Returned (Retryable "timeout"), after_call fp w u))
  ∧ (isinstance_Timeout exc = false → isinstance_ConnectionError exc = true →
     attempt_once upload_fn fp w
     = (Returned (Retryable ("connection error: " +:+ exc_str exc)),
        after_call fp w u)).
Proof.
  intros Hcall. rewrite (attempt_once_raised _ _ _ _ _ Hcall).
  unfold on_exception. split.
  - by intros ->.
  - by intros -> ->.
Qed.

(** X2. With [retries <= 0] the upload operation is never called: the
    function returns at once, without a response, the error
    "unknown error after <retries> attempts", and leaves no event. *)
Theorem upload_with_retry_without_attempts upload_fn fp retries delay w :
  retries ≤ 0 →
  upload_with_retry upload_fn fp retries delay w
  = (Returned (None, Some ("unknown error after " +:+ pretty retries
                           +:+ " attempts")), w).
Proof.
  intros Hr. unfold upload_with_retry. rewrite py_range_nil by lia.
  reflexivity.
Qed.

(** The shape of what the loop returns, from any attempt on. *)
Lemma retry_loop_outcome_shape
    upload_fn fp retries delay attempts last_err w response err w' :
  retry_loop upload_fn fp retries delay attempts last_err w
  = (Returned (response, err), w') →
  (err = None →
     ∃ r, response = Some r ∧ 200 ≤ status_code r < 300)
  ∧ (response = None → err ≠ None).
Proof.
  revert last_err w. induction attempts as [|k rest IH]; intros last_err w.
  - simpl. unfold ret. intros [= <- <- <-]. split; [done|]. done.
  - simpl. unfold bind at 1.
    destruct (attempt_once upload_fn fp w) as [[fl|e|code] w1] eqn:Hat;
      [|discriminate..].
    destruct fl as [resp e'|last_err'].
    + unfold ret. intros [= <- <- <-].
      destruct (attempt_once_flow _ _ _ _ _ Hat) as [[r Hfl]|[exc Hfl]].
      * split.
        -- intros ->. symmetry in Hfl.
           apply on_response_no_error in Hfl as [-> Hok]. eauto.
        -- intros ->. intros ->. symmetry in Hfl.
           by apply on_response_no_error in Hfl as [? _].
      * split.
        -- intros ->. symmetry in Hfl. by apply on_exception_has_error in Hfl.
        -- intros _ ->. symmetry in Hfl. by apply on_exception_has_error in Hfl.
    + unfold bind at 1.
      destruct (backoff retries delay k last_err' w1) as [[[]|e|code] w2];
        [|discriminate..].
      apply IH.
Qed.



(** X3. Whenever the function returns without an error string it returns
    a response, and that response has a status in [200,300): [main] can
    read [response.status_code] of every upload it reports as OK.  An
    outcome without a response always carries an error string. *)
Theorem upload_with_retry_success_has_response
    upload_fn fp retries delay w response err w' :
  upload_with_retry upload_fn fp retries delay w
  = (Returned (response, err), w') →
  (err = None →
     ∃ r, response = Some r ∧ 200 ≤ status_code r < 300)
  ∧ (response = None → err ≠ None).
Proof. apply retry_loop_outcome_shape. Qed.


(** X5. [sys.exit] inside the upload operation is not caught by
    [except Exception]: the function ends at once with the same exit
    code, with no further attempt and no sleep. *)
Theorem upload_with_retry_exit_propagates
    upload_fn fp retries delay attempt rest last_err w code u :
  upload_fn fp (blank w) = (SysExit code, u) →
  retry_loop upload_fn fp retries delay (attempt :: rest) last_err w
  = (SysExit code, after_call fp w u).
Proof.
  intros Hcall. simpl. unfold blank in Hcall.
  unfold bind at 1, attempt_once, try_except, bind, emit, lift.
  simpl. by rewrite Hcall.
Qed.

(** X6. A status below 200 (an informational 1xx, or any smaller number)
    is not retried: the function returns at once with the response and
    the error "HTTP <status>". *)
Theorem upload_with_retry_low_status_terminal
    upload_fn fp retries delay attempt rest last_err w response u :
  upload_fn fp (blank w) = (Returned response, u) →
  status_code response < 200 →
  retry_loop upload_fn fp retries delay (attempt :: rest) last_err w
  = (Returned (Some response,
               Some ("HTTP " +:+ pretty (status_code response))),
     after_call fp w u).
Proof.
  intros Hcall Hlow. apply attempt_once_returned in Hcall.
  apply retry_loop_return. rewrite Hcall.
  rewrite on_response_terminal; [done | lia | lia].
Qed.
End RetryFurther.

(* ------------------------------------------------------------------ *)
(** * Further properties of the collector *)

Section CollectorFurther.
Context {D X E : Type}.
Variable fnmatch : string → string → bool.
Implicit Types (fs : FileSystem) (excludes : list string)
  (pairs : list (string * string)) (w : world (event D X) E).

Lemma filter_bool_split {A} (f g : A → bool) (l : list A) :
  (length (filter (λ x, f x && negb (g x)) l)
   + length (filter (λ x, f x && g x) l))%nat
  = length (filter (λ x, f x) l).
Proof.
  induction l as [|x l IH]; [done|]. rewrite !filter_cons_bool.
  destruct (f x), (g x); simpl; lia.
Qed.

Lemma filter_bool_weaker {A} (f g : A → bool) (l : list A) :
  (∀ x, f x = true → g x = true) →
  (length (filter (λ x, f x) l) ≤ length (filter (λ x, g x) l))%nat.
Proof.
  intros Himp. induction l as [|x l IH]; [done|]. rewrite !filter_cons_bool.
  specialize (Himp x). destruct (f x), (g x); simpl; try lia.
Qed.

Lemma excluded_spec excludes name :
  excluded fnmatch excludes name = true
  ↔ ∃ p, p ∈ excludes ∧ fnmatch name p = true.
Proof.
  unfold excluded. rewrite existsb_exists.
  split; intros (p & Hp & Hm); exists p; split; try done;
    by apply list_elem_of_In.
Qed.

(** Two exclude lists with the same patterns exclude the same names. *)
Lemma excluded_same_patterns excludes1 excludes2 name :
  (∀ p, p ∈ excludes1 ↔ p ∈ excludes2) →
  excluded fnmatch excludes1 name = excluded fnmatch excludes2 name.
Proof.
  intros Hsame. apply eq_true_iff_eq. rewrite !excluded_spec.
  split; intros (p & Hp & Hm); exists p; split; try done; by apply Hsame.
Qed.

(** X7. A target that is neither a file nor a directory ends the
    program: one line on stderr that names the path, exit status 1, and
    no result. *)
Theorem collect_files_missing_path_exits fs target recursive excludes w :
  isfile fs target = false → isdir fs target = false →
  collect_files fnmatch fs target recursive excludes w
  = (SysExit 1,
     {| env := env w;
        trace := trace w
          ++ [EvStderr ("ERROR: Path does not exist: " +:+ target)] |}).
Proof. intros Hfile Hdir. unfold collect_files. by rewrite Hfile, Hdir. Qed.

(** X8. Every regular file that is visited is either returned or counted
    as skipped, and nothing else is: the length of the list plus the
    skipped count is the number of regular files among the entries (1 for
    a single-file target). *)
Theorem collect_files_counts_every_regular_file
    fs target recursive excludes w files skipped w' :
  collect_files fnmatch fs target recursive excludes w
  = (Returned (files, skipped), w') →
  Z.of_nat (length files) + skipped
  = if isfile fs target then 1
    else Z.of_nat (length (filter (λ pr, regular fs pr)
                             (entries fs target recursive))).
Proof.
  intros Hrun. destruct (isfile fs target) eqn:Hfile.
  - rewrite collect_files_single in Hrun by done.
    by destruct (excluded _ _ _); simplify_eq.
  - destruct (isdir fs target) eqn:Hdir.
    + rewrite collect_files_directory in Hrun by done. simplify_eq.
      rewrite (Permutation_length (py_sort_permutation _)).
      unfold kept, skipped_count. rewrite length_fmap.
      rewrite <- (filter_bool_split (regular fs)
                    (λ pr, excluded fnmatch excludes pr.2)). lia.
    + rewrite collect_files_missing_path_exits in Hrun by done.
      discriminate.
Qed.

(** X9. Adding exclude patterns never brings a file in: every file
    returned under the longer list is returned under the shorter one, the
    skipped count does not shrink, and the two totals agree. *)
Theorem collect_files_more_excludes_fewer_files
    fs target recursive excludes more w files skipped files' skipped' w1 w2 :
  collect_files fnmatch fs target recursive excludes w
  = (Returned (files, skipped), w1) →
  collect_files fnmatch fs target recursive (excludes ++ more) w
  = (Returned (files', skipped'), w2) →
  files' ⊆ files ∧ skipped ≤ skipped'
  ∧ Z.of_nat (length files') + skipped' = Z.of_nat (length files) + skipped.
Proof.
  intros Hrun Hrun'.
  assert (Htotal := collect_files_counts_every_regular_file _ _ _ _ _ _ _ _ Hrun).
  assert (Htotal' := collect_files_counts_every_regular_file _ _ _ _ _ _ _ _ Hrun').
  assert (Hmore : ∀ name, excluded fnmatch (excludes ++ more) name
                          = excluded fnmatch excludes name
                            || excluded fnmatch more name).
  { intros name. unfold excluded. apply existsb_app. }
  assert (Hsub : files' ⊆ files).
  { destruct (isfile fs target) eqn:Hfile.
    - rewrite collect_files_single in Hrun, Hrun' by done.
      rewrite Hmore in Hrun'.
      destruct (excluded fnmatch excludes _); simpl in *; simplify_eq.
      + set_solver.
      + destruct (excluded fnmatch more _); simplify_eq; set_solver.
    - destruct (isdir fs target) eqn:Hdir.
      + rewrite collect_files_directory in Hrun, Hrun' by done. simplify_eq.
        intros f. rewrite !py_sort_permutation. unfold kept.
        rewrite !list_elem_of_fmap.
        intros (pr & -> & Hin). exists pr. split; [done|].
        apply list_elem_of_filter in Hin as [Hkeep Hin].
        apply list_elem_of_filter. split; [|done].
        rewrite Hmore in Hkeep.
        destruct (regular fs pr), (excluded fnmatch excludes pr.2); done.
      + rewrite collect_files_missing_path_exits in Hrun by done.
        discriminate. }
  split; [exact Hsub|].
  assert (Hlen : (length files' ≤ length files)%nat).
  { destruct (isfile fs target) eqn:Hfile.
    - rewrite collect_files_single in Hrun, Hrun' by done.
      rewrite Hmore in Hrun'.
      destruct (excluded fnmatch excludes _); simpl in *; simplify_eq;
        [done|]. destruct (excluded fnmatch more _); simplify_eq; simpl;
          repeat constructor.
    - destruct (isdir fs target) eqn:Hdir.
      + rewrite collect_files_directory in Hrun, Hrun' by done. simplify_eq.
        rewrite !(Permutation_length (py_sort_permutation _)).
        unfold kept. rewrite !length_fmap.
        apply filter_bool_weaker. intros pr. rewrite Hmore.
        by destruct (regular fs pr), (excluded fnmatch excludes pr.2).
      + rewrite collect_files_missing_path_exits in Hrun by done.
        discriminate. }
  lia.
Qed.

(** X10. Only the set of exclude patterns matters: listing the same
    patterns in another order, or repeating one, changes nothing. *)
Theorem collect_files_exclude_order_irrelevant
    fs target recursive excludes1 excludes2 w :
  (∀ p, p ∈ excludes1 ↔ p ∈ excludes2) →
  collect_files fnmatch fs target recursive excludes1 w
  = collect_files fnmatch fs target recursive excludes2 w.
Proof.
  intros Hsame.
  assert (Hex := λ name, excluded_same_patterns _ _ name Hsame).
  destruct (isfile fs target) eqn:Hfile.
  - by rewrite !collect_files_single, Hex.
  - destruct (isdir fs target) eqn:Hdir.
    + rewrite !collect_files_directory by done.
      unfold kept, skipped_count.
      rewrite (filter_bool_agree
                 (λ pr, regular fs pr && negb (excluded fnmatch excludes1 pr.2))
                 (λ pr, regular fs pr && negb (excluded fnmatch excludes2 pr.2)))
        by (apply Forall_forall; intros; by rewrite Hex).
      rewrite (filter_bool_agree
                 (λ pr, regular fs pr && excluded fnmatch excludes1 pr.2)
                 (λ pr, regular fs pr && excluded fnmatch excludes2 pr.2))
        by (apply Forall_forall; intros; by rewrite Hex).
      done.
    + by rewrite !collect_files_missing_path_exits.
Qed.
End CollectorFurther.

(* ------------------------------------------------------------------ *)
(** * Further properties of the resolver and of the run *)

Section RunFurther.
Context {D : Type} `{Seconds D} {E : Type} `{Outside E}.
Implicit Types (w : world (event D io_event) E)
  (fs : FileSystem) (args : Args D).

(** X11. The resolver does not look past the first entry point it
    finds: when that method gives no signature, resolution raises the
    error of [inspect.signature], even if a later candidate could have
    been bound, and [main] ends there with exit status 1, before any file
    is collected or uploaded. *)
Theorem resolve_upload_fn_no_signature_aborts (a1000 : Client) m w :
  chosen a1000 = Some m → signature m = None →
  resolve_upload_fn a1000 w
  = (Raised no_signature,
     {| env := env w; trace := trace w ++ [EvOp (IoSignature m)] |})
  ∧ ∀ fnmatch fs args A1000 init_params w0,
      init_signature A1000 = Some init_params →
      construct A1000 (init_kwargs args init_params) = a1000 →
      main fnmatch fs args (Some A1000) w0
      = (Raised no_signature,
         {| env := env w0;
            trace := trace w0 ++ [EvPatchTimeout (timeout args);
                                  EvOp (IoSignature m)] |})
      ∧ exit_status (main fnmatch fs args (Some A1000) w0).1 = 1.
Proof.
  intros Hchosen Hsig.
  assert (Hres : ∀ w', resolve_upload_fn (D:=D) a1000 w'
            = (Raised no_signature,
               {| env := env w'; trace := trace w' ++ [EvOp (IoSignature m)] |})).
  { intros w'. unfold chosen in Hchosen. unfold resolve_upload_fn.
    destruct (probe a1000 ["upload_sample_from_path"; "submit_file_from_path"])
      as [m'|].
    - injection Hchosen as ->.
      unfold lift, _make_path_caller, inspect_signature, bind, emit.
      simpl. by rewrite Hsig.
    - rewrite Hchosen.
      unfold lift, _make_handle_caller, inspect_signature, bind, emit.
      simpl. by rewrite Hsig. }
  split; [apply Hres|].
  intros fnmatch fs args A1000 init_params w0 Hinit Hobj.
  assert (Hmain : main fnmatch fs args (Some A1000) w0
            = (Raised no_signature,
               {| env := env w0;
                  trace := trace w0 ++ [EvPatchTimeout (timeout args);
                                        EvOp (IoSignature m)] |})).
  { unfold main, patch_timeout. rewrite Hinit.
    unfold py_signature, bind at 1, emit at 1. unfold bind at 1, ret at 1.
    unfold bind at 1. rewrite Hobj, Hres. simpl. by rewrite <- app_assoc. }
  by rewrite Hmain.
Qed.

(** X12. Resolution reads the four candidate names only: giving the SDK
    object any other attribute, or changing one, leaves the outcome
    unchanged. *)
Theorem resolve_upload_fn_ignores_other_attributes
    (a1000 : Client) name m w :
  name ∉ candidate_names →
  resolve_upload_fn (<[name := m]> a1000) w = resolve_upload_fn a1000 w.
Proof.
  intros Hother. unfold candidate_names in Hother.
  unfold resolve_upload_fn. cbn [probe].
  rewrite !lookup_insert_ne by set_solver. done.
Qed.

(** X13. A target path that does not exist stops the run after the
    upload method was resolved: one line on stderr, exit status 1, no
    header, no summary and no upload. *)
Theorem main_missing_path_exits_before_upload
    fnmatch fs args A1000 init_params w upload_fn w1 :
  init_signature A1000 = Some init_params →
  resolve_upload_fn (construct A1000 (init_kwargs args init_params))
    {| env := env w; trace := trace w ++ [EvPatchTimeout (timeout args)] |}
  = (Returned upload_fn, w1) →
  isfile fs (target_path args) = false →
  isdir fs (target_path args) = false →
  main fnmatch fs args (Some A1000) w
  = (SysExit 1,
     {| env := env w1;
        trace := trace w1
          ++ [EvStderr ("ERROR: Path does not exist: "
                        +:+ target_path args)] |}).
Proof.
  intros Hinit Hresolve Hfile Hdir. unfold main, patch_timeout.
  unfold bind at 1, emit at 1. rewrite Hinit.
  unfold bind at 1, py_signature, ret at 1.
  unfold bind at 1. rewrite Hresolve.
  unfold bind at 1, collect_files. rewrite Hfile, Hdir. reflexivity.
Qed.
End RunFurther.

Section LoopFurther.
Context {D : Type} `{Seconds D} {E : Type} `{Outside E}.
Implicit Types (w : world (event D io_event) E)
  (fs : FileSystem) (args : Args D).


(** What [main] does once the files are collected. *)
Lemma main_after_collection fnmatch fs args A1000 init_params w upload_fn w1
    files skipped w2 :
  init_signature A1000 = Some init_params →
  resolve_upload_fn (construct A1000 (init_kwargs args init_params))
    {| env := env w; trace := trace w ++ [EvPatchTimeout (timeout args)] |}
  = (Returned upload_fn, w1) →
  collect_files fnmatch fs (target_path args) (recursive args)
    (exclude args) w1 = (Returned (files, skipped), w2) →
  let n_files := Z.of_nat (length files) in
  let total_seen := n_files + skipped in
  let w3 := (announce fs args files skipped w2).2 in
  main fnmatch fs args (Some A1000) w
  = match files with
    | [] => print_summary 0 0 skipped total_seen w3
    | _ :: _ =>
        (counts <~ upload_loop fs args upload_fn
           (if isdir fs (target_path args) then target_path args
            else dirname (target_path args))
           n_files (py_len (pretty n_files)) 1 files 0 0 ;;
         let '(uploaded, failed) := counts in
         print_summary uploaded failed skipped total_seen ;;;
         if bool_decide (0 < failed) then sys_exit 1 else ret tt) w3
    end.
Proof.
  intros Hinit Hresolve Hcollect n_files total_seen w3.
  destruct (announce_returns fs args files skipped w2) as [w3' Hann].
  assert (Hw3 : w3 = w3') by (subst w3; by rewrite Hann).
  unfold main, patch_timeout.
  unfold bind at 1, emit at 1. rewrite Hinit.
  unfold bind at 1, py_signature, ret at 1.
  unfold bind at 1. rewrite Hresolve.
  unfold bind at 1. rewrite Hcollect.
  unfold bind at 1. rewrite Hann, Hw3. by destruct files.
Qed.

(** X14. The totals of the summary add up: when the upload loop has run
    to its end, every collected file was counted once, as uploaded or as
    failed, and the total that [main] prints is uploaded + failed +
    skipped; with no file collected the total is the skipped count. *)
Theorem main_summary_counts_add_up
    fnmatch fs args A1000 init_params w upload_fn w1 files skipped w2 :
  init_signature A1000 = Some init_params →
  resolve_upload_fn (construct A1000 (init_kwargs args init_params))
    {| env := env w; trace := trace w ++ [EvPatchTimeout (timeout args)] |}
  = (Returned upload_fn, w1) →
  collect_files fnmatch fs (target_path args) (recursive args)
    (exclude args) w1 = (Returned (files, skipped), w2) →
  let n_files := Z.of_nat (length files) in
  let w3 := (announce fs args files skipped w2).2 in
  let run := main fnmatch fs args (Some A1000) w in
  (files = [] → trace run.2 = trace w3 ++ summary_events 0 0 skipped skipped)
  ∧ (∀ uploaded failed w4,
       files ≠ [] →
       upload_loop fs args upload_fn
         (if isdir fs (target_path args) then target_path args
          else dirname (target_path args))
         n_files (py_len (pretty n_files)) 1 files 0 0 w3
       = (Returned (uploaded, failed), w4) →
       0 ≤ uploaded ∧ 0 ≤ failed ∧ uploaded + failed = n_files
       ∧ trace run.2
         = trace w4
           ++ summary_events uploaded failed skipped
                (uploaded + failed + skipped)).
Proof.
  intros Hinit Hresolve Hcollect n_files w3 run.
  pose proof (main_after_collection _ _ _ _ _ _ _ _ _ _ _
                Hinit Hresolve Hcollect) as Hrun.
  cbv zeta in Hrun. fold n_files w3 run in Hrun. split.
  - intros ->. rewrite Hrun, print_summary_run. done.
  - intros uploaded failed w4 Hne Hloop.
    destruct files as [|f files']; [done|].
    rewrite Hrun. unfold bind at 1. rewrite Hloop.
    unfold bind at 1. rewrite print_summary_run.
    apply upload_loop_counts in Hloop as (Hup & Hfl & Hsum).
    replace (uploaded + failed + skipped) with (n_files + skipped)
      by (subst n_files; lia).
    split; [lia|]. split; [lia|]. split; [subst n_files; simpl in *; lia|].
    by case_bool_decide.
Qed.

End LoopFurther.

Section PacingFurther.
Context {D : Type} `{Seconds D} {E : Type} `{Outside E}.
Implicit Types (w : world (event D io_event) E)
  (fs : FileSystem) (args : Args D).

Lemma between_cons (pause : D) part (parts : list (list (step (D:=D)))) :
  parts ≠ [] →
  between pause (part :: parts) = part ++ Wait pause :: between pause parts.
Proof. by destruct parts. Qed.

Lemma upload_loop_schedule fs args upload_fn base_path n_files width
    todo idx uploaded failed w counts w' :
  n_files = idx + Z.of_nat (length todo) - 1 →
  upload_loop fs args upload_fn base_path n_files width idx todo
    uploaded failed w = (Returned counts, w') →
  ∃ evs parts,
    trace w' = trace w ++ evs
    ∧ Forall2 (λ fpath part,
         part `prefix_of` full_schedule fpath (retries args) (retry_delay args)
                            (py_range 1 (retries args + 1)))
        todo parts
    ∧ schedule_of evs = between (sleep args) parts.
Proof.
  revert idx uploaded failed w.
  induction todo as [|fpath rest IH]; intros idx uploaded failed w Hn.
  - simpl. unfold ret. intros [= <- <-]. exists [], [].
    rewrite app_nil_r. by repeat split.
  - cbn [upload_loop]. unfold bind at 1.
    destruct (retry_loop_schedule (call_upload upload_fn) fpath
                (retries args) (retry_delay args)
                (py_range 1 (retries args + 1)) "unknown error" w)
      as (evs1 & Htr1 & Hpre1).
    fold (upload_with_retry (call_upload upload_fn) fpath (retries args)
            (retry_delay args)) in Htr1.
    destruct (upload_with_retry _ _ _ _ w) as [[[response err]|e|code] w1];
      [|discriminate..].
    simpl in Htr1.
    assert (Hnext : ∀ line up fl,
      ((if bool_decide (idx < n_files) then time_sleep (sleep args)
        else ret tt) ;;;
       upload_loop fs args upload_fn base_path n_files width (idx + 1)
         rest up fl)
        {| env := env w1; trace := trace w1 ++ [EvPrint line] |}
      = (Returned counts, w') →
      ∃ evs parts,
        trace w' = trace w ++ evs
        ∧ Forall2 (λ fpath part,
             part `prefix_of` full_schedule fpath (retries args)
                                (retry_delay args)
                                (py_range 1 (retries args + 1)))
            (fpath :: rest) parts
        ∧ schedule_of evs = between (sleep args) parts).
    { intros line up fl. unfold bind at 1.
      case_bool_decide as Hidx.
      - unfold time_sleep. destruct (sleep_ok (sleep args)); [|discriminate].
        unfold emit. cbn [env trace]. intros Hrun.
        apply IH in Hrun as (evs & parts & -> & Hparts & Hsch);
          [|cbn [length] in Hn; lia].
        exists (evs1 ++ [EvPrint line] ++ [EvSleep (sleep args)] ++ evs),
               (schedule_of evs1 :: parts).
        cbn [trace]. rewrite Htr1, <- !app_assoc. split; [done|]. split.
        + by constructor.
        + rewrite !schedule_of_app, Hsch.
          rewrite between_cons; [done|].
          destruct rest; [cbn [length] in Hn; lia|].
          by inversion Hparts.
      - unfold ret. intros Hrun.
        destruct rest as [|f rest]; [|cbn [length] in Hn; lia].
        simpl in Hrun. unfold ret in Hrun. injection Hrun as <- <-.
        exists (evs1 ++ [EvPrint line]), [schedule_of evs1].
        simpl. rewrite Htr1, <- app_assoc. split; [done|]. split.
        + by repeat constructor.
        + rewrite schedule_of_app. simpl. by rewrite app_nil_r. }
    destruct err as [err|].
    + unfold bind at 1, bind at 1, print, emit, ret. cbn [fst snd].
      apply Hnext.
    + destruct response as [resp|].
      * unfold bind at 1, bind at 1, print, emit, ret. cbn [fst snd].
        apply Hnext.
      * unfold bind at 1, raise. discriminate.
Qed.

End PacingFurther.

(* ------------------------------------------------------------------ *)
(** * patch_timeout: the replacement of [requests.Session.send] *)

Section PatchTimeout.
Context {S Q V R : Type}.

(** X17. The patched [send] passes the request on with the same keyword
    arguments, except that a [timeout] the caller did not give is filled
    in with the default; a [timeout] the caller gave is never replaced. *)
Theorem patched_send_fills_missing_timeout
    (original_send : S → Q → gmap string V → R) (timeout : V)
    self request (kwargs : gmap string V) :
  ∃ kwargs',
    patched_send original_send timeout self request kwargs
    = original_send self request kwargs'
    ∧ (∀ key, key ≠ "timeout" → kwargs' !! key = kwargs !! key)
    ∧ kwargs' !! "timeout" = Some (default timeout (kwargs !! "timeout")).
Proof.
  exists (setdefault "timeout" timeout kwargs). split; [done|].
  unfold setdefault. destruct (kwargs !! "timeout") as [given|] eqn:Hgiven.
  - by rewrite Hgiven.
  - split.
    + intros key Hkey. by rewrite lookup_insert_ne.
    + by rewrite lookup_insert_eq.
Qed.

(** X18. Patching twice does not stack: after [patch_timeout(t1)] and
    then [patch_timeout(t2)], [send] behaves as if only
    [patch_timeout(t2)] had been applied to the original; the later
    default wins. *)
Theorem patch_timeout_twice_later_wins
    (original_send : S → Q → gmap string V → R) (t1 t2 : V)
    self request (kwargs : gmap string V) :
  patched_send (patched_send original_send t1) t2 self request kwargs
  = patched_send original_send t2 self request kwargs.
Proof.
  unfold patched_send. f_equal. unfold setdefault at 1.
  assert (Hset : is_Some (setdefault "timeout" t2 kwargs !! "timeout")).
  { unfold setdefault. destruct (kwargs !! "timeout") eqn:Hgiven.
    - by rewrite Hgiven.
    - by rewrite lookup_insert_eq. }
  by destruct Hset as [given ->].
Qed.
End PatchTimeout.

(* ------------------------------------------------------------------ *)
(** * parse_args: the required settings *)

Lemma truthy_spec (p : option string) :
  truthy p = true ↔ ∃ s, p = Some s ∧ s ≠ "".
Proof.
  destruct p as [s|]; simpl.
  - rewrite negb_true_iff, bool_decide_eq_false. split.
    + intros Hs. by exists s.
    + by intros (s' & [= <-] & Hs).
  - split; [done|]. by intros (s & [=] & _).
Qed.

Lemma truthy_absent (p : option string) :
  p = None ∨ p = Some "" → truthy p = false.
Proof. by intros [-> | ->]. Qed.

Lemma py_or_left a b : truthy a = true → py_or a b = a.
Proof. unfold py_or. by intros ->. Qed.

Lemma py_or_right a b : truthy a = false → py_or a b = b.
Proof. unfold py_or. by intros ->. Qed.

(** X19. [parse_args] returns only with a target path, a host and a
    token that are all non-empty: an option given as the empty string, or
    an empty environment variable, does not satisfy the requirement. *)
Theorem parse_args_required_nonempty environ cli target host token :
  parse_args_required environ cli = Parsed target host token →
  target ≠ "" ∧ host ≠ "" ∧ token ≠ "".
Proof.
  unfold parse_args_required.
  destruct (truthy (py_or _ _)) eqn:Htarget; [|done].
  destruct (truthy (match cli_host cli with Some _ => _ | None => _ end))
    eqn:Hhost; [|done].
  destruct (truthy (match cli_token cli with Some _ => _ | None => _ end))
    eqn:Htoken; [|done].
  simpl. intros [= <- <- <-].
  apply truthy_spec in Htarget as (t & -> & ?).
  apply truthy_spec in Hhost as (h & -> & ?).
  apply truthy_spec in Htoken as (k & -> & ?). done.
Qed.

(** X20. The target path is taken from the positional argument, else
    from [--path], else from [RL_PATH], an empty string counting as
    absent: a non-empty positional argument wins over the other two, and
    without one a non-empty [--path] wins over [RL_PATH]. *)
Theorem parse_args_target_precedence environ cli target host token :
  parse_args_required environ cli = Parsed target host token →
  (∀ p, cli_path cli = Some p → p ≠ "" → target = p)
  ∧ (∀ p, (cli_path cli = None ∨ cli_path cli = Some "") →
          cli_path_flag cli = Some p → p ≠ "" → target = p)
  ∧ ((cli_path cli = None ∨ cli_path cli = Some "") →
     (cli_path_flag cli = None ∨ cli_path_flag cli = Some "") →
     environ !! "RL_PATH" = Some target).
Proof.
  unfold parse_args_required.
  destruct (truthy (py_or _ _)) eqn:Htarget; [|done].
  destruct (truthy (match cli_host cli with Some _ => _ | None => _ end));
    [|done].
  destruct (truthy (match cli_token cli with Some _ => _ | None => _ end));
    [|done].
  simpl. intros [= <- _ _].
  apply truthy_spec in Htarget as (t & Ht & Hne). rewrite Ht. simpl.
  split; [|split].
  - intros p Hpath Hp.
    assert (Hgiven : truthy (Some p) = true) by (apply truthy_spec; eauto).
    rewrite Hpath in Ht. rewrite (py_or_left (Some p)) in Ht by done.
    rewrite py_or_left in Ht by done. by injection Ht.
  - intros p Hpath Hflag Hp.
    assert (Hgiven : truthy (Some p) = true) by (apply truthy_spec; eauto).
    rewrite (py_or_right (cli_path cli)) in Ht by by apply truthy_absent.
    rewrite Hflag, py_or_left in Ht by done. by injection Ht.
  - intros Hpath Hflag.
    rewrite (py_or_right (cli_path cli)) in Ht by by apply truthy_absent.
    by rewrite py_or_right in Ht by by apply truthy_absent.
Qed.

(* ------------------------------------------------------------------ *)
(** * print_summary: the frame *)

Lemma py_len_app (a b : string) : py_len (a +:+ b) = (py_len a + py_len b)%nat.
Proof.
  induction a as [|c a IH]; [done|].
  change (String c a +:+ b) with (String c (a +:+ b)). cbn [py_len].
  rewrite IH. by destruct (_ && _).
Qed.

Lemma py_len_repeat (s : string) (n : nat) :
  py_len (str_repeat s n) = (n * py_len s)%nat.
Proof.
  induction n as [|n IH]; [done|]. cbn [str_repeat].
  rewrite py_len_app, IH. lia.
Qed.

(** X21. The two bars of the summary are as wide as the summary text
    plus 8 characters, which is one character less than the "Done." line
    between them. *)
Theorem print_summary_bar_width {D X E} (uploaded failed skipped total : Z)
    (w : world (event D X) E) :
  ∃ bar line,
    print_summary uploaded failed skipped total w
    = (Returned tt,
       {| env := env w;
          trace := trace w ++ (EvPrint <$> [""; bar; line; bar]) |})
    ∧ py_len bar
      = (py_len (summary_text uploaded failed skipped total) + 8)%nat
    ∧ py_len line = S (py_len bar).
Proof.
  eexists _, _. split.
  { unfold print_summary, bind, print, emit. simpl.
    rewrite <- !app_assoc. reflexivity. }
  rewrite py_len_repeat, py_len_app. split.
  - change (py_len "═") with 1%nat. lia.
  - change (py_len "═") with 1%nat. change (py_len "  Done.  ") with 9%nat. lia.
Qed.

(* ------------------------------------------------------------------ *)
(** * The SDK constructor's keyword arguments *)

(** X22. [main] passes [host], [token] and [verify] with the values of
    the arguments, and [user_agent] exactly when the constructor has a
    parameter of that name: if the constructor accepts the first three,
    it is never given a keyword it does not accept. *)
Theorem init_kwargs_accepted {D} (args : Args D) (init_params : list string) :
  (init_kwargs args init_params).*1
  = ["host"; "token"; "verify"]
    ++ (if bool_decide ("user_agent" ∈ init_params) then ["user_agent"] else [])
  ∧ (("host", KwStr (host args)) ∈ init_kwargs args init_params
     ∧ ("token", KwStr (token args)) ∈ init_kwargs args init_params
     ∧ ("verify", KwBool (verify_ssl args)) ∈ init_kwargs args init_params)
  ∧ ("host" ∈ init_params → "token" ∈ init_params → "verify" ∈ init_params →
     ∀ key, key ∈ (init_kwargs args init_params).*1 → key ∈ init_params).
Proof.
  unfold init_kwargs. case_bool_decide as Hua; simpl.
  - split; [done|]. split; [by rewrite !elem_of_cons; auto 6|].
    intros Hh Ht Hv key. rewrite !elem_of_cons, elem_of_nil.
    by intros [->|[->|[->|[->|[]]]]].
  - split; [done|]. split; [by rewrite !elem_of_cons; auto 6|].
    intros Hh Ht Hv key. rewrite !elem_of_cons, elem_of_nil.
    by intros [->|[->|[->|[]]]].
Qed.

(* ------------------------------------------------------------------ *)
(** * File handles across the attempts of one upload *)

Section HandlesFurther.
Context {D : Type} `{Seconds D} {E : Type} `{Outside E}.

Lemma ops_of_app {X} (evs1 evs2 : list (event D X)) :
  ops_of (evs1 ++ evs2) = ops_of evs1 ++ ops_of evs2.
Proof. apply omap_app. Qed.

Lemma ops_of_op {X} (xs : list X) : ops_of (D:=D) (EvOp <$> xs) = xs.
Proof.
  induction xs as [|x xs IH]; [done|].
  change (x :: ops_of (D:=D) (EvOp <$> xs) = x :: xs). by rewrite IH.
Qed.

(** The events that the operation leaves during a run of the loop are
    those of its calls, one call after the other. *)
Lemma retry_loop_ops {X} (upload_fn : string → M X E Response) fp retries
    (delay : D) (P : list X → Prop) attempts last_err
    (w : world (event D X) E) :
  P [] → (∀ xs ys, P xs → P ys → P (xs ++ ys)) →
  (∀ e, P (trace (upload_fn fp {| env := e; trace := [] |}).2)) →
  ∃ evs,
    trace (retry_loop upload_fn fp retries delay attempts last_err w).2
    = trace w ++ evs
    ∧ P (ops_of evs).
Proof.
  intros Hnil Happ Hcall. revert last_err w.
  induction attempts as [|k rest IH]; intros last_err w.
  - exists []. simpl. by rewrite app_nil_r.
  - simpl. unfold bind at 1.
    assert (Hat : ∃ r e1 xs,
      attempt_once upload_fn fp w
      = (r, {| env := e1; trace := trace w ++ EvCall fp :: (EvOp <$> xs) |})
      ∧ P xs).
    { unfold attempt_once, try_except, bind, emit, lift, ret. simpl.
      specialize (Hcall (env w)).
      destruct (upload_fn fp _) as [[response|exc|code] u]; simpl in *;
        eexists _, _, (trace u); rewrite <- app_assoc; simpl; split; done. }
    destruct Hat as (r & e1 & xs & -> & Hxs).
    assert (Hone : P (ops_of (D:=D) (EvCall fp :: (EvOp <$> xs)))).
    { change (EvCall fp :: (EvOp <$> xs))
        with ([EvCall (D:=D) (X:=X) fp] ++ (EvOp <$> xs)).
      rewrite ops_of_app, ops_of_op. exact Hxs. }
    set (w1 := {| env := e1; trace := _ |}).
    assert (Hcont : ∀ w2 extra,
      trace w2 = trace w1 ++ extra → ops_of extra = [] →
      ∀ last_err',
      ∃ evs,
        trace (retry_loop upload_fn fp retries delay rest last_err' w2).2
        = trace w ++ evs ∧ P (ops_of evs)).
    { intros w2 extra Htr Hextra last_err'.
      destruct (IH last_err' w2) as (evs & -> & Hevs).
      exists ((EvCall fp :: (EvOp <$> xs)) ++ extra ++ evs).
      rewrite Htr. subst w1. cbn [trace]. rewrite <- !app_assoc.
      split; [done|]. rewrite !ops_of_app, Hextra. by apply Happ. }
    destruct r as [[resp err|last_err']|e|code]; simpl.
    + eexists. by split.
    + unfold bind at 1.
      destruct (backoff_cases retries delay k last_err' w1)
        as [(_ & _ & ->) | [(_ & _ & e & ->) | (_ & ->)]].
      * by eapply Hcont.
      * eexists (_ ++ [_]). subst w1. cbn [trace]. rewrite <- app_assoc.
        split; [done|]. rewrite ops_of_app. simpl. by rewrite app_nil_r.
      * apply (Hcont w1 []); [by rewrite app_nil_r | done].
    + eexists. by split.
    + eexists. by split.
Qed.

Lemma opened_then_closed_app xs ys :
  opened_then_closed xs → opened_then_closed ys →
  opened_then_closed (xs ++ ys).
Proof. induction 1; [done|]. intros. simpl. constructor. auto. Qed.

(** One call of the handle-based closure opens at most one handle and
    closes it. *)
Lemma handle_upload_call m p fp (e : E) :
  opened_then_closed
    (handle_use (trace (call_upload (HandleUpload m p) fp
                          {| env := e; trace := [] |}).2)).
Proof.
  cbn [call_upload]. unfold bind at 1, py_open, bind at 1, outside at 1.
  cbn [env trace].
  destruct (open_file fp "rb" e) as [[fh|exc|code] e1];
    [|simpl; constructor..].
  unfold bind at 1, emit at 1, ret at 1. cbn [env trace]. unfold try_finally.
  assert (Hbody : ∀ v,
    match p with
    | Some name => if truthy p then invoke m (Keyword name (ArgHandle fh))
                   else invoke m (Positional (ArgHandle fh))
    | None => invoke m (Positional (ArgHandle fh))
    end v = entered m (handle_args p fh) v).
  { intros v. rewrite <- invoke_entered. unfold handle_args.
    destruct p; [|done]. by destruct (truthy _). }
  rewrite Hbody. unfold entered. cbn [env trace].
  destruct (sdk_call m (handle_args p fh) e1) as [r e2].
  unfold py_close, bind, emit, outside. cbn [env trace].
  simpl. repeat constructor.
Qed.

(** X23. With the handle-based closure, a whole run of
    [upload_with_retry] leaves no file open: over all its attempts, every
    handle that was opened is closed before the next attempt opens one
    and before the function returns, however each attempt ends. *)
Theorem handle_upload_leaves_no_file_open m p fp retries (delay : D)
    (w : world (event D io_event) E) :
  ∃ evs,
    trace (upload_with_retry (call_upload (HandleUpload m p)) fp retries
             delay w).2 = trace w ++ evs
    ∧ opened_then_closed (handle_use (ops_of evs)).
Proof.
  apply (retry_loop_ops (call_upload (HandleUpload m p)) fp retries delay
           (λ xs, opened_then_closed (handle_use xs))).
  - constructor.
  - intros xs ys Hxs Hys. unfold handle_use. rewrite omap_app.
    by apply opened_then_closed_app.
  - apply handle_upload_call.
Qed.

(** X24. With a path-based closure the program itself never opens a
    file: everything a run of [upload_with_retry] does at the SDK layer
    is to enter the entry point with the path under the bound keyword. *)
Theorem path_upload_only_invokes m p fp retries (delay : D)
    (w : world (event D io_event) E) :
  ∃ evs,
    trace (upload_with_retry (call_upload (PathByKeyword m p)) fp retries
             delay w).2 = trace w ++ evs
    ∧ Forall (λ x, x = IoInvoke m (Keyword p (ArgPath fp))) (ops_of evs).
Proof.
  apply (retry_loop_ops (call_upload (PathByKeyword m p)) fp retries delay
           (Forall (λ x, x = IoInvoke m (Keyword p (ArgPath fp))))).
  - constructor.
  - intros xs ys Hxs Hys. by apply Forall_app.
  - intros e. cbn [call_upload]. rewrite invoke_entered. unfold entered.
    cbn [env trace]. destruct (sdk_call _ _ e). simpl. by repeat constructor.
Qed.
End HandlesFurther.

(* ------------------------------------------------------------------ *)
(** * The order of the uploads *)

Section OrderFurther.
Context {D : Type} `{Seconds D} {E : Type} `{Outside E}.
Implicit Types (fs : FileSystem) (args : Args D).

Lemma collect_files_returns_sorted {X} (fnmatch : string → string → bool)
    fs target recursive excludes (w w' : world (event D X) E) files skipped :
  collect_files fnmatch fs target recursive excludes w
  = (Returned (files, skipped), w') →
  Sorted String.le files.
Proof.
  destruct (isfile fs target) eqn:Hfile.
  - rewrite collect_files_single by done.
    destruct (excluded _ _ _); intros [= <- _ _]; repeat constructor.
  - destruct (isdir fs target) eqn:Hdir.
    + rewrite collect_files_directory by done. intros [= <- _ _].
      apply py_sort_sorted.
    + unfold collect_files. rewrite Hfile, Hdir. discriminate.
Qed.

Lemma attempted_app (sch1 sch2 : list (step (D:=D))) :
  attempted (sch1 ++ sch2) = attempted sch1 ++ attempted sch2.
Proof. apply omap_app. Qed.

Lemma attempted_prefix fp retries (delay : D) attempts
    (part : list (step (D:=D))) :
  part `prefix_of` full_schedule fp retries delay attempts →
  Forall (eq fp) (attempted part).
Proof.
  assert (Hall : Forall (eq fp)
                   (attempted (full_schedule fp retries delay attempts))).
  { unfold full_schedule. induction attempts as [|k rest IH]; [constructor|].
    cbn [mbind list_bind]. rewrite attempted_app. apply Forall_app. split.
    - case_bool_decide; repeat constructor.
    - apply IH. }
  intros [tl Hfull].
  rewrite Hfull, attempted_app in Hall. by apply Forall_app in Hall as [? _].
Qed.

Lemma attempted_between (pause : D) (parts : list (list (step (D:=D)))) :
  attempted (between pause parts) = concat (attempted <$> parts).
Proof.
  induction parts as [|part parts IH]; [done|].
  destruct parts as [|part' parts].
  - simpl. by rewrite app_nil_r.
  - change (between pause (part :: part' :: parts))
      with (part ++ Wait pause :: between pause (part' :: parts)).
    rewrite attempted_app.
    change (attempted (Wait pause :: between pause (part' :: parts)))
      with (attempted (between pause (part' :: parts))).
    rewrite IH. reflexivity.
Qed.

Lemma blocks_from (files : list string) (blocks : list (list string)) :
  Forall2 (λ f block, Forall (eq f) block) files blocks →
  ∀ fp, fp ∈ concat blocks → fp ∈ files.
Proof.
  induction 1 as [|f block files blocks Hblock _ IH]; intros fp; [done|].
  cbn [concat]. rewrite elem_of_app, elem_of_cons. intros [Hfp | Hfp].
  - left. rewrite Forall_forall in Hblock. symmetry. by apply Hblock.
  - right. by apply IH.
Qed.

Lemma blocks_sorted (files : list string) (blocks : list (list string)) :
  Sorted String.le files →
  Forall2 (λ f block, Forall (eq f) block) files blocks →
  Sorted String.le (concat blocks).
Proof.
  intros Hsorted%Sorted_StronglySorted Hblocks; [|apply _].
  apply StronglySorted_Sorted.
  induction Hblocks as [|f block files blocks Hblock Hblocks IH];
    [constructor|].
  apply StronglySorted_inv in Hsorted as [Hrest Hleast].
  cbn [concat]. induction Hblock as [|x block <- Hsame IHblock]; [by apply IH|].
  cbn [app]. constructor; [exact IHblock|].
  apply Forall_app. split.
  - eapply Forall_impl; [exact Hsame|]. by intros y <-.
  - apply Forall_forall. intros y Hy.
    rewrite Forall_forall in Hleast. apply Hleast.
    by apply (blocks_from files blocks).
Qed.

(** X25. The files are uploaded in the order of the sorted list that
    [collect_files] returned: over the whole loop, the paths of the calls
    of the upload operation are in ascending order (the attempts for one
    file next to each other), and no path is tried that is not in the
    list. *)
Theorem upload_loop_follows_sorted_order
    (fnmatch : string → string → bool) fs args upload_fn base_path width
    (w1 w2 w3 : world (event D io_event) E) files skipped counts w4 :
  collect_files fnmatch fs (target_path args) (recursive args) (exclude args)
    w1 = (Returned (files, skipped), w2) →
  upload_loop fs args upload_fn base_path (Z.of_nat (length files)) width 1
    files 0 0 w3 = (Returned counts, w4) →
  ∃ evs,
    trace w4 = trace w3 ++ evs
    ∧ Sorted String.le (attempted (schedule_of evs))
    ∧ ∀ fp, fp ∈ attempted (schedule_of evs) → fp ∈ files.
Proof.
  intros Hcollect Hloop.
  apply collect_files_returns_sorted in Hcollect.
  apply upload_loop_schedule in Hloop as (evs & parts & Htrace & Hparts & Hsch);
    [|lia].
  exists evs. split; [exact Htrace|].
  rewrite Hsch, attempted_between.
  assert (Hblocks : Forall2 (λ f block, Forall (eq f) block) files
                      (attempted <$> parts)).
  { apply Forall2_fmap_r. eapply Forall2_impl; [exact Hparts|].
    intros f part. apply attempted_prefix. }
  split; [by apply (blocks_sorted files) | by apply blocks_from].
Qed.
End OrderFurther.

(* ------------------------------------------------------------------ *)
(** * The further statements at concrete inputs *)

Lemma upload_with_retry_transport_errors_retryable_witness :
  attempt_once (D:=Z) scripted_upload "sample.bin" (start [Raised timed_out])
  = (Returned (Retryable "timeout"),
     {| env := []; trace := [EvCall "sample.bin"; EvOp tt] |}).
Proof.
  pose proof (upload_with_retry_transport_errors_retryable (D:=Z)
                scripted_upload "sample.bin" (start [Raised timed_out])
                timed_out {| env := []; trace := [tt] |} eq_refl)
    as [Htimeout _].
  apply Htimeout. reflexivity.
Defined.

Lemma upload_with_retry_without_attempts_witness :
  upload_with_retry (D:=Z) scripted_upload "sample.bin" (-1) 5
    (start [http 200])
  = (Returned (None, Some "unknown error after -1 attempts"),
     start [http 200]).
Proof.
  rewrite (upload_with_retry_without_attempts (D:=Z) scripted_upload
             "sample.bin" (-1) 5 (start [http 200])) by lia.
  reflexivity.
Defined.

Lemma upload_with_retry_success_has_response_witness :
  ∃ r,
    (upload_with_retry (D:=Z) scripted_upload "sample.bin" 3 5
       (start [http 500; http 200])).1 = Returned (Some r, None)
    ∧ 200 ≤ status_code r < 300.
Proof.
  assert (Hrun :
    upload_with_retry (D:=Z) scripted_upload "sample.bin" 3 5
      (start [http 500; http 200])
    = (Returned (Some {| status_code := 200; body := "" |}, None),
       {| env := [];
          trace := [EvCall "sample.bin"; EvOp tt;
                    EvPrint "          Attempt 1/3: HTTP 500, retrying in 5s...";
                    EvSleep 5; EvCall "sample.bin"; EvOp tt] |}))
    by (vm_compute; reflexivity).
  destruct (upload_with_retry_success_has_response (D:=Z) _ _ _ _ _ _ _ _ Hrun)
    as [Hok _].
  destruct (Hok eq_refl) as (r & Hr & Hstatus).
  exists r. split; [|exact Hstatus]. rewrite Hrun, Hr. reflexivity.
Defined.


Lemma upload_with_retry_exit_propagates_witness :
  retry_loop (D:=Z) scripted_upload "sample.bin" 3 5 [1; 2; 3] "unknown error"
    (start [SysExit 2; http 200])
  = (SysExit 2,
     {| env := [http 200]; trace := [EvCall "sample.bin"; EvOp tt] |}).
Proof.
  apply (upload_with_retry_exit_propagates (D:=Z) scripted_upload "sample.bin"
           3 5 1 [2; 3] "unknown error" (start [SysExit 2; http 200]) 2
           {| env := [http 200]; trace := [tt] |} eq_refl).
Defined.

Lemma upload_with_retry_low_status_terminal_witness :
  retry_loop (D:=Z) scripted_upload "sample.bin" 3 5 [1; 2; 3] "unknown error"
    (start [http 100])
  = (Returned (Some {| status_code := 100; body := "" |}, Some "HTTP 100"),
     {| env := []; trace := [EvCall "sample.bin"; EvOp tt] |}).
Proof.
  apply (upload_with_retry_low_status_terminal (D:=Z) scripted_upload
           "sample.bin" 3 5 1 [2; 3] "unknown error" (start [http 100])
           {| status_code := 100; body := "" |}
           {| env := []; trace := [tt] |} eq_refl).
  simpl. lia.
Defined.

Lemma collect_files_missing_path_exits_witness :
  collect_files (D:=Z) (X:=unit) posix_fnmatch demo_fs "nowhere" false []
    (start tt)
  = (SysExit 1,
     {| env := tt;
        trace := [EvStderr "ERROR: Path does not exist: nowhere"] |}).
Proof.
  apply (collect_files_missing_path_exits (D:=Z) (X:=unit) posix_fnmatch
           demo_fs "nowhere" false [] (start tt)); reflexivity.
Defined.

Lemma collect_files_counts_every_regular_file_witness :
  ∃ files skipped,
    collect_files (D:=Z) (X:=unit) posix_fnmatch demo_fs "root" true ["*.tmp"]
      (start tt) = (Returned (files, skipped), start tt)
    ∧ Z.of_nat (length files) + skipped = 5.
Proof.
  exists ["/work/root/a.txt"; "/work/root/b.exe";
          "/work/root/sub.tmp/keep.txt"], 2.
  assert (Hrun :
    collect_files (D:=Z) (X:=unit) posix_fnmatch demo_fs "root" true ["*.tmp"]
      (start tt)
    = (Returned (["/work/root/a.txt"; "/work/root/b.exe";
                  "/work/root/sub.tmp/keep.txt"], 2), start tt))
    by (vm_compute; reflexivity).
  split; [exact Hrun|].
  rewrite (collect_files_counts_every_regular_file (D:=Z) (X:=unit)
             posix_fnmatch demo_fs "root" true ["*.tmp"] (start tt) _ _ _ Hrun).
  vm_compute. reflexivity.
Defined.

Lemma collect_files_more_excludes_fewer_files_witness :
  ∃ files skipped files' skipped',
    collect_files (D:=Z) (X:=unit) posix_fnmatch demo_fs "root" false
      ["*.tmp"] (start tt) = (Returned (files, skipped), start tt)
    ∧ collect_files (D:=Z) (X:=unit) posix_fnmatch demo_fs "root" false
        (["*.tmp"] ++ ["*.exe"]) (start tt)
      = (Returned (files', skipped'), start tt)
    ∧ files' ⊆ files ∧ skipped ≤ skipped'
    ∧ Z.of_nat (length files') + skipped' = Z.of_nat (length files) + skipped.
Proof.
  exists ["/work/root/a.txt"; "/work/root/b.exe"], 1, ["/work/root/a.txt"], 2.
  assert (Hrun :
    collect_files (D:=Z) (X:=unit) posix_fnmatch demo_fs "root" false
      ["*.tmp"] (start tt)
    = (Returned (["/work/root/a.txt"; "/work/root/b.exe"], 1), start tt))
    by (vm_compute; reflexivity).
  assert (Hrun' :
    collect_files (D:=Z) (X:=unit) posix_fnmatch demo_fs "root" false
      (["*.tmp"] ++ ["*.exe"]) (start tt)
    = (Returned (["/work/root/a.txt"], 2), start tt))
    by (vm_compute; reflexivity).
  split; [exact Hrun|]. split; [exact Hrun'|].
  exact (collect_files_more_excludes_fewer_files (D:=Z) (X:=unit)
           posix_fnmatch demo_fs "root" false ["*.tmp"] ["*.exe"] (start tt)
           _ _ _ _ _ _ Hrun Hrun').
Defined.

Lemma collect_files_exclude_order_irrelevant_witness :
  collect_files (D:=Z) (X:=unit) posix_fnmatch demo_fs "root" true
    ["*.tmp"; "*.exe"] (start tt)
  = collect_files posix_fnmatch demo_fs "root" true
      ["*.exe"; "*.tmp"; "*.exe"] (start tt).
Proof.
  apply (collect_files_exclude_order_irrelevant (D:=Z) (X:=unit) posix_fnmatch
           demo_fs "root" true ["*.tmp"; "*.exe"] ["*.exe"; "*.tmp"; "*.exe"]
           (start tt)).
  intros p. rewrite !elem_of_cons, !elem_of_nil. tauto.
Defined.

Lemma resolve_upload_fn_no_signature_aborts_witness :
  main posix_fnmatch demo_fs demo_args (Some opaque_sdk) (start demo_script)
  = (Raised no_signature,
     {| env := demo_script;
        trace := [EvPatchTimeout 300; EvOp (IoSignature opaque_method)] |}).
Proof.
  destruct (resolve_upload_fn_no_signature_aborts (D:=Z)
              {[ "upload_sample_from_path" := opaque_method ]} opaque_method
              (start demo_script)) as [_ Hmain];
    [vm_compute; reflexivity | reflexivity |].
  apply (Hmain posix_fnmatch demo_fs demo_args opaque_sdk
           ["self"; "host"; "token"; "verify"] (start demo_script));
    reflexivity.
Defined.

Lemma resolve_upload_fn_ignores_other_attributes_witness :
  resolve_upload_fn (D:=Z) (<["upload_sample" := upload_sample_from_path]> ∅)
    (start demo_script)
  = resolve_upload_fn ∅ (start demo_script).
Proof.
  apply (resolve_upload_fn_ignores_other_attributes (D:=Z) ∅ "upload_sample"
           upload_sample_from_path (start demo_script)).
  apply (bool_decide_unpack _). vm_compute. exact I.
Defined.

Lemma main_missing_path_exits_before_upload_witness :
  main posix_fnmatch demo_fs lost_args (Some demo_sdk) (start demo_script)
  = (SysExit 1,
     {| env := demo_script;
        trace := [EvPatchTimeout 300;
                  EvOp (IoSignature upload_sample_from_path);
                  EvStderr "ERROR: Path does not exist: nowhere"] |}).
Proof.
  apply (main_missing_path_exits_before_upload (D:=Z) posix_fnmatch demo_fs
           lost_args demo_sdk
           ["self"; "host"; "token"; "verify"; "user_agent"]
           (start demo_script)
           (PathByKeyword upload_sample_from_path "file_path")
           {| env := demo_script;
              trace := [EvPatchTimeout 300;
                        EvOp (IoSignature upload_sample_from_path)] |});
    reflexivity.
Defined.

Lemma main_summary_counts_add_up_witness :
  drop 26 (trace (main posix_fnmatch demo_fs demo_args (Some demo_sdk)
                    (start demo_script)).2)
  = summary_events 1 1 1 (1 + 1 + 1).
Proof.
  edestruct (main_summary_counts_add_up (D:=Z) posix_fnmatch demo_fs demo_args
               demo_sdk ["self"; "host"; "token"; "verify"; "user_agent"]
               (start demo_script)) as [_ Hloop].
  - reflexivity.
  - lazy. reflexivity.
  - lazy. reflexivity.
  - edestruct (Hloop 1 1) as (_ & _ & _ & Htrace).
    + discriminate.
    + lazy. reflexivity.
    + rewrite Htrace. vm_compute. reflexivity.
Defined.



Lemma parse_args_required_nonempty_witness :
  parse_args_required demo_environ demo_cli
  = Parsed "root" "https://a1000.example" "typed"
  ∧ "root" ≠ "" ∧ "https://a1000.example" ≠ "" ∧ "typed" ≠ "".
Proof.
  assert (Hrun : parse_args_required demo_environ demo_cli
                 = Parsed "root" "https://a1000.example" "typed")
    by (vm_compute; reflexivity).
  split; [exact Hrun|].
  exact (parse_args_required_nonempty demo_environ demo_cli _ _ _ Hrun).
Defined.

Lemma parse_args_target_precedence_witness :
  parse_args_required demo_environ env_only_cli
  = Parsed "samples" "https://a1000.example" "secret"
  ∧ demo_environ !! "RL_PATH" = Some "samples".
Proof.
  assert (Hrun : parse_args_required demo_environ env_only_cli
                 = Parsed "samples" "https://a1000.example" "secret")
    by (vm_compute; reflexivity).
  split; [exact Hrun|].
  destruct (parse_args_target_precedence demo_environ env_only_cli _ _ _ Hrun)
    as (_ & _ & Henv).
  apply Henv; [right | left]; reflexivity.
Defined.

Lemma upload_loop_follows_sorted_order_witness :
  ∃ evs,
    trace (upload_loop demo_fs demo_args
             (PathByKeyword upload_sample_from_path "file_path") "root"
             (Z.of_nat (length demo_files)) 1 1 demo_files 0 0
             (start demo_script)).2
    = trace (start (Ev:=event Z io_event) demo_script) ++ evs
    ∧ Sorted String.le (attempted (schedule_of evs)).
Proof.
  edestruct (upload_loop_follows_sorted_order (D:=Z) posix_fnmatch demo_fs
               demo_args (PathByKeyword upload_sample_from_path "file_path")
               "root" 1%nat (start demo_script) (start demo_script)
               (start demo_script) demo_files 1 (1, 1))
    as (evs & Htrace & Hsorted & _).
  - vm_compute. reflexivity.
  - lazy. reflexivity.
  - exists evs. split; [exact Htrace | exact Hsorted].
Defined.
